(** * Seekret: the organisation crawl of [main.go]

    A shallow embedding of [CrawlOrg] and [HasSensitive].  The GitHub listing,
    the clone, and the file system are the program's collaborators: their
    answers are the fields of a [World], and the disk they act on is an
    explicit state threaded through the crawl.

    What the model takes from the collaborators:
    - paths are strings and the crawl's [filepath.Join] concatenates with a
      separator; Go's [Join] ends with [Clean], modelled as [filepath.Clean],
      which is the identity on plain names (no separator, not [.] or [..]),
      and what depends on it is stated for repositories with plain names;
    - the disk is a sequence of absolute paths with what they name; relative
      paths resolve against the working directory of the process;
    - a clone either fails and leaves the disk as it was, or lays the
      repository's tree under its directory;
    - [os.RemoveAll] either fails and leaves the disk as it was, or removes
      the path and everything below it;
    - a walk meets no [Lstat] failure (the walk function of [main.go]
      reads [info] before [err] and would panic on it) and no symbolic
      link: a visited entry is a directory or a regular file with its own
      bytes;
    - logging is not modelled. *)

From Stdlib Require Import ZArith Ascii String DecimalString Strings.Byte List.
From stdpp Require Import gmap strings list.
Import ListNotations.

(** ** Go slices

    A slice is either [nil] or a (possibly empty) sequence: the program tests
    [!= nil], so the two are kept apart.  [append] never returns [nil]. *)

Definition slice (A : Type) : Type := option (list A).

Definition items {A} (s : slice A) : list A :=
  match s with
  | None => []
  | Some l => l
  end.

Definition append {A} (s : slice A) (x : A) : slice A := Some (items s ++ [x]).

(** ** Strings: the pieces of [strings] and [path/filepath] the crawl uses *)

Module strings.

(** [strings.TrimPrefix] with the outcome made explicit: [Some rest] when
    [s] starts with [prefix]. *)
Fixpoint CutPrefix (s prefix : string) {struct prefix} : option string :=
  match prefix with
  | EmptyString => Some s
  | String a prefix' =>
      match s with
      | EmptyString => None
      | String b s' => if Ascii.eqb a b then CutPrefix s' prefix' else None
      end
  end.

(** [strings.Split(s, "\n")]: the text between line feeds; an empty input
    gives one empty string, and a trailing line feed a last empty string. *)
Fixpoint SplitLines (s : string) : list string :=
  match s with
  | EmptyString => [EmptyString]
  | String c s' =>
      if Ascii.eqb c "010"%char then EmptyString :: SplitLines s'
      else match SplitLines s' with
           | [] => [String c EmptyString]
           | l :: ls => String c l :: ls
           end
  end.

End strings.

Module filepath.

Definition Separator : ascii := "/"%char.

Definition IsPathSeparator (c : ascii) : bool := Ascii.eqb c Separator.

(** [filepath.Join] of two plain path elements: the elements with a
    separator between them.  Go's [Join] is [join] below, which ends with
    [Clean]; on elements that are not empty, not [.] or [..] and hold no
    separator [Clean] changes nothing ([join_plain2] and [join_plain3]
    below), and the properties that need the crawl's paths to be Go's paths
    are stated for such names.  [Join(a, b, c)] is [Join (Join a b) c]. *)
Definition Join (a b : string) : string := a +:+ "/" +:+ b.

Definition IsAbs (path : string) : bool :=
  match path with
  | String c _ => IsPathSeparator c
  | EmptyString => false
  end.

Fixpoint hasSeparator (s : string) : bool :=
  match s with
  | EmptyString => false
  | String c s' => IsPathSeparator c || hasSeparator s'
  end.

(** The first loop of [Base]: trailing separators are dropped. *)
Fixpoint trimTrailing (s : string) : string :=
  match s with
  | EmptyString => EmptyString
  | String c s' =>
      match trimTrailing s' with
      | EmptyString => if IsPathSeparator c then EmptyString else String c EmptyString
      | t => String c t
      end
  end.

(** The second loop of [Base]: what follows the last separator. *)
Fixpoint lastElement (s : string) : string :=
  match s with
  | EmptyString => EmptyString
  | String c s' =>
      if hasSeparator s' then lastElement s'
      else if IsPathSeparator c then s' else String c s'
  end.

Definition Base (path : string) : string :=
  match path with
  | EmptyString => "."
  | _ =>
      match lastElement (trimTrailing path) with
      | EmptyString => "/"
      | e => e
      end
  end.

(** [filepath.Rel] on the two shapes a walk produces: the root itself and
    a path below the root.  For any other target Go answers with a path
    through [..] or an error; the model answers [None], the error. *)
Definition Rel (basepath targpath : string) : option string :=
  if String.eqb targpath basepath then Some "."
  else strings.CutPrefix targpath (basepath +:+ "/").

(** The path elements [Clean] reads: the text between separators. *)
Fixpoint elements (path : string) : list string :=
  match path with
  | EmptyString => [EmptyString]
  | String c rest =>
      if IsPathSeparator c then EmptyString :: elements rest
      else match elements rest with
           | [] => [String c EmptyString]
           | e :: es => String c e :: es
           end
  end.

(** One turn of the loop of [Clean], on the element read; [out] holds the
    elements written so far, the last one first.  An empty element and a
    [.] are dropped; a [..] takes back the last element written when there
    is one that is not itself a [..], is written when the path is not rooted,
    and is dropped at the root; any other element is written. *)
Definition cleanStep (rooted : bool) (out : list string) (e : string) : list string :=
  if String.eqb e "" then out
  else if String.eqb e "." then out
  else if String.eqb e ".." then
    match out with
    | top :: below =>
        if String.eqb top ".." then (if rooted then out else e :: out) else below
    | [] => if rooted then out else [e]
    end
  else e :: out.

(** [filepath.Clean]: the shortest path name equivalent to [path] by purely
    lexical processing. *)
Definition Clean (path : string) : string :=
  match path with
  | EmptyString => "."
  | String c _ =>
      let rooted := IsPathSeparator c in
      match List.fold_left (cleanStep rooted) (elements path) [] with
      | [] => if rooted then "/" else "."
      | out =>
          (if rooted then "/" else "") +:+ String.concat "/" (List.rev out)
      end
  end.

(** [join], the body of [filepath.Join] on Unix: leading empty elements are
    skipped and the rest is joined with separators and cleaned; with no
    element left the result is empty. *)
Fixpoint join (elem : list string) : string :=
  match elem with
  | [] => ""
  | e :: rest =>
      if String.eqb e "" then join rest else Clean (String.concat "/" elem)
  end.

(** A plain path element: not empty, not [.] or [..], without separator. *)
Definition plain (e : string) : bool :=
  negb (String.eqb e "") && negb (String.eqb e ".") && negb (String.eqb e "..")
  && negb (hasSeparator e).

End filepath.

(** ** The data model of [main.go] *)

(** [SensitivePos] is the byte frame containing sensitive data. *)
Record SensitivePos := { Start : Z; End : Z }.

(** [SensitiveFile] is a file with one or more sensitive data. *)
Record SensitiveFile := { Path : string; Positions : slice SensitivePos }.

(** [SensitiveRepo] is a repo with one or more sensitive files. *)
Record SensitiveRepo := { Name : string; Files : slice SensitiveFile }.

(** Default name of the [.credignore] file. *)
Definition credIgnoreFile : string := ".credignore".

(** [HasSensitive] searches [fileData] for any data resembling secret
    information; the body in [main.go] is [return nil]. *)
Definition HasSensitive (fileData : list byte) : slice SensitivePos := None.



(** ** The collaborators *)

Module github.

(** The two fields of [github.Repository] the crawl reads, both [*string]. *)
Record Repository := { Name : option string; CloneURL : option string }.

End github.

(** What a path names on the disk.  A regular file whose bytes cannot be read
    (permissions, I/O error) carries [None]. *)
Inductive entry : Type :=
  | Directory
  | Regular (data : option (list byte)).

Definition IsDir (info : entry) : bool :=
  match info with
  | Directory => true
  | Regular _ => false
  end.

(** The disk: absolute path names and what they name, in the order the file
    system enumerates them. *)
Definition disk : Type := list (string * entry).

(** A working tree as a clone delivers it: paths relative to the clone's
    directory (the [.git] directory among them), in enumeration order. *)
Definition tree : Type := list (string * entry).

(** The answers of the outside world during one run. *)
Record World := {
  (** [client.Repositories.ListByOrg]: [None] is an error. *)
  ListByOrg : string -> option (list github.Repository);
  (** The working directory of the process, below the root [/]. *)
  wd : string;
  (** Whether [os.Getwd] fails. *)
  Getwd_fails : bool;
  (** The digits [ioutil.TempDir] appends to the prefix; [None] when the
      directory cannot be created. *)
  TempDir_digits : option Decimal.uint;
  (** [git.PlainCloneContext] by clone URL: [None] is an error. *)
  PlainClone : string -> option tree;
  (** Whether [os.RemoveAll] fails on an absolute path (the disk is then left
      as it was). *)
  RemoveAll_fails : string -> bool
}.

(** The collaborator calls that act on the disk, in program order: a scratch
    directory created, a clone attempted, a removal or a walk started. *)
Inductive call : Type :=
  | CallTempDir (path : string)
  | CallClone (url dir : string)
  | CallRemoveAll (path : string)
  | CallWalk (root : string).

(** ** The file system *)

(** A path is at or below a root. *)
Definition within (root path : string) : bool :=
  String.eqb path root || bool_decide (is_Some (strings.CutPrefix path (root +:+ "/"))).

Definition lookupPath (path : string) (d : disk) : option entry :=
  snd <$> List.find (fun qe => String.eqb (fst qe) path) d.

(** A clone's working tree laid down under [dir]. *)
Definition place (dir : string) (t : tree) : disk :=
  (dir, Directory) :: List.map (fun qe => (filepath.Join dir (fst qe), snd qe)) t.

(** What is left of the disk when [path] and everything below it are gone. *)
Definition without (path : string) (d : disk) : disk :=
  List.filter (fun qe => negb (within path (fst qe))) d.

(** The entries a walk from [root] visits, named as [filepath.Walk] names
    them: the root as given, and [Join root rel] below it. *)
Definition visited (absRoot root : string) (d : disk) : list (string * entry) :=
  omap (fun qe =>
          if String.eqb (fst qe) absRoot then Some (root, snd qe)
          else (fun rel => (filepath.Join root rel, snd qe))
                 <$> strings.CutPrefix (fst qe) (absRoot +:+ "/")) d.

(** The result of a Go call that returns a value and an [error]. *)
Definition error : Type := string.

(** [walkEntries] is the loop of [filepath.Walk]: the walk function is called
    on each entry in turn and the walk stops at the first error it returns. *)
Fixpoint walkEntries {S} (walkFn : string -> entry -> S -> option error * S)
    (entries : list (string * entry)) (s : S) : option error * S :=
  match entries with
  | [] => (None, s)
  | (path, info) :: rest =>
      match walkFn path info s with
      | (Some err, s') => (Some err, s')
      | (None, s') => walkEntries walkFn rest s'
      end
  end.

(** The outcome of a stretch of the crawl: the report so far, the disk it
    leaves, and the collaborator calls it made. *)
Record outcome := {
  report : slice SensitiveRepo;
  after : disk;
  calls : list call
}.

Section Crawl.

(** The detector the walk function calls; [main.go] calls [HasSensitive]. *)
Variable detect : list byte -> slice SensitivePos.
Variable w : World.

(** The working directory, a rooted path; relative paths resolve against it. *)
Definition cwd : string := "/" +:+ wd w.

Definition resolve (path : string) : string :=
  if filepath.IsAbs path then path else filepath.Join cwd path.

(** [os.Getwd] *)
Definition Getwd : option string :=
  if Getwd_fails w then None else Some cwd.

(** [ioutil.TempDir(dir, prefix)]: a new directory [dir/prefixNNN]. *)
Definition TempDir (dir prefix : string) (d : disk) : option (string * disk) :=
  match TempDir_digits w with
  | None => None
  | Some digits =>
      let name := filepath.Join dir (prefix +:+ NilEmpty.string_of_uint digits) in
      Some (name, d ++ [(resolve name, Directory)])
  end.

(** [git.PlainCloneContext(ctx, dir, false, {URL: url})] *)
Definition PlainCloneContext (dir url : string) (d : disk) : option disk :=
  match PlainClone w url with
  | None => None
  | Some t => Some (d ++ place (resolve dir) t)
  end.

(** [os.RemoveAll(path)]: the disk afterwards, and whether it failed. *)
Definition RemoveAll (path : string) (d : disk) : disk * bool :=
  if RemoveAll_fails w (resolve path) then (d, true)
  else (without (resolve path) d, false).

(** [os.Stat(path)] succeeds when the path names something. *)
Definition Stat (path : string) (d : disk) : bool :=
  bool_decide (is_Some (lookupPath (resolve path) d)).

(** [ioutil.ReadFile(path)]: the bytes of the regular file the path names
    (symbolic links, which [ReadFile] would follow, are not modelled). *)
Definition ReadFile (path : string) (d : disk) : option (list byte) :=
  match lookupPath (resolve path) d with
  | Some (Regular (Some data)) => Some data
  | _ => None
  end.

(** [filepath.Walk(root, walkFn)].  The crawl walks a directory it has just
    cloned, so the root is on the disk; the call of the walk function with a
    [nil] [FileInfo], which [Walk] makes when [Lstat] fails, is not
    modelled. *)
Definition Walk {S} (root : string)
    (walkFn : string -> entry -> S -> option error * S) (d : disk) (s : S)
    : option error * S :=
  walkEntries walkFn (visited (resolve root) root d) s.

(** Line 161: [f != "" && f[0] != '#'], the lines that are neither empty
    nor comments. *)
Definition isEntry (f : string) : bool :=
  match f with
  | EmptyString => false
  | String c _ => negb (Ascii.eqb c "#"%char)
  end.

(** Lines 159-164: the loop over the lines of the [.credignore] file. *)
Fixpoint addIgnored (ignoreList : list string) (filesToIgnore : gset string)
    : gset string :=
  match ignoreList with
  | [] => filesToIgnore
  | f :: rest =>
      if isEntry f then addIgnored rest ({[f]} ∪ filesToIgnore)
      else addIgnored rest filesToIgnore
  end.

(** Lines 147-166: the set of files to skip in one repository. *)
Definition resolveIgnore (tmpDir repoName : string) (d : disk) : gset string :=
  let ignoreFile := filepath.Join (filepath.Join tmpDir repoName) credIgnoreFile in
  if Stat ignoreFile d then
    let filesToIgnore : gset string := {[filepath.Join repoName credIgnoreFile]} in
    match ReadFile ignoreFile d with
    | Some ignoreData =>
        addIgnored (strings.SplitLines (string_of_list_byte ignoreData)) filesToIgnore
    | None => filesToIgnore
    end
  else ∅.

(** Lines 173-204: the walk function [f]; its state is [sensitiveRepo.Files]. *)
Definition walkFunc (repoDir : string) (filesToIgnore : gset string) (d : disk)
    (path : string) (info : entry) (files : slice SensitiveFile)
    : option error * slice SensitiveFile :=
  if IsDir info then (None, files)
  else
    match filepath.Rel repoDir path with
    | None => (None, files)
    | Some relPath =>
        if bool_decide (relPath ∈ filesToIgnore) then (None, files)
        else
          match ReadFile path d with
          | None => (None, files)
          | Some fileData =>
              match detect fileData with
              | None => (None, files)
              | Some positions =>
                  (None, append files {| Path := relPath; Positions := Some positions |})
              end
          end
    end.

(** Lines 168-208: the scan of one cloned repository. *)
Definition scanRepo (tmpDir repoName : string) (d : disk)
    : option error * slice SensitiveFile :=
  let repoDir := filepath.Join tmpDir repoName in
  let filesToIgnore := resolveIgnore tmpDir repoName d in
  Walk repoDir (walkFunc repoDir filesToIgnore d) d None.

(** Lines 121-214: one turn of the loop over [repos]. *)
Definition crawlRepo (tmpDir : string) (repo : github.Repository)
    (d : disk) (srs : slice SensitiveRepo) : outcome :=
  let continue := {| report := srs; after := d; calls := [] |} in
  match github.Name repo with
  | None => continue
  | Some repoName =>
      if String.eqb repoName "" then continue
      else
        match github.CloneURL repo with
        | None => continue
        | Some cloneURL =>
            if String.eqb cloneURL "" then continue
            else
              let repoDir := filepath.Join tmpDir repoName in
              match PlainCloneContext repoDir cloneURL d with
              | None =>
                  {| report := srs; after := d; calls := [CallClone cloneURL repoDir] |}
              | Some d1 =>
                  let gitDir := filepath.Join (filepath.Join tmpDir repoName) ".git" in
                  let d2 := fst (RemoveAll gitDir d1) in
                  let made := [CallClone cloneURL repoDir; CallRemoveAll gitDir;
                               CallWalk repoDir] in
                  match scanRepo tmpDir repoName d2 with
                  | (Some _, _) => {| report := srs; after := d2; calls := made |}
                  | (None, files) =>
                      match files with
                      | Some _ =>
                          {| report := append srs {| Name := repoName; Files := files |};
                             after := d2; calls := made |}
                      | None => {| report := srs; after := d2; calls := made |}
                      end
                  end
              end
        end
  end.

(** The loop [for _, repo := range repos]. *)
Fixpoint crawlRepos (tmpDir : string) (repos : list github.Repository)
    (d : disk) (srs : slice SensitiveRepo) : outcome :=
  match repos with
  | [] => {| report := srs; after := d; calls := [] |}
  | repo :: rest =>
      let o := crawlRepo tmpDir repo d srs in
      let o' := crawlRepos tmpDir rest (after o) (report o) in
      {| report := report o'; after := after o'; calls := calls o ++ calls o' |}
  end.

(** [CrawlOrg], with the deferred [os.RemoveAll(tmpDir)] run last on the
    path that registered it. *)
Definition crawlOrg (orgName : string) (d : disk) : outcome :=
  let abort := {| report := None; after := d; calls := [] |} in
  match ListByOrg w orgName with
  | None => abort
  | Some repos =>
      match Getwd with
      | None => abort
      | Some cwd =>
          match TempDir cwd "tmp_" d with
          | None => abort
          | Some (tmpDir0, d1) =>
              let tmpDir := filepath.Base tmpDir0 in
              let o := crawlRepos tmpDir repos d1 None in
              {| report := report o;
                 after := fst (RemoveAll tmpDir0 (after o));
                 calls := CallTempDir tmpDir0 :: calls o ++ [CallRemoveAll tmpDir0] |}
          end
      end
  end.

End Crawl.

(** [CrawlOrg] pulls all public GitHub repos owned by an org, then checks each
    repo's files with [HasSensitive]. *)
Definition CrawlOrg (w : World) (orgName : string) (d : disk) : outcome :=
  crawlOrg HasSensitive w orgName d.

(** ** The vocabulary of the properties *)

(** A slice that is [nil] or holds at least one item: what repeated [append]
    from [nil] produces. *)
Definition filled {A} (s : slice A) : Prop := forall l, s = Some l -> l <> [].

(** What one turn of the loop can do to the report. *)
Inductive turn (repo : github.Repository) (srs : slice SensitiveRepo)
    : slice SensitiveRepo -> Prop :=
  | turn_skip : turn repo srs srs
  | turn_add repoName fs :
      github.Name repo = Some repoName -> fs <> [] ->
      turn repo srs (append srs {| Name := repoName; Files := Some fs |}).

(** Every repository in the report carries at least one file. *)
Definition noEmptyEntry (srs : slice SensitiveRepo) : Prop :=
  forall sr, In sr (items srs) -> items (Files sr) <> [].

(** A listed repository with a usable name and clone URL whose clone fails. *)
Definition cloneFails (w : World) (repo : github.Repository) : Prop :=
  exists repoName cloneURL,
    github.Name repo = Some repoName /\ repoName <> "" /\
    github.CloneURL repo = Some cloneURL /\ cloneURL <> "" /\
    PlainClone w cloneURL = None.

(** The same world with another answer from the listing call. *)
Definition relisted (w : World) (repos : list github.Repository) : World := {|
  ListByOrg := fun _ => Some repos;
  wd := wd w;
  Getwd_fails := Getwd_fails w;
  TempDir_digits := TempDir_digits w;
  PlainClone := PlainClone w;
  RemoveAll_fails := RemoveAll_fails w
|}.

(** The base name of the directory [ioutil.TempDir(cwd, "tmp_")] returns,
    and the directory. *)
Definition scratchName (digits : Decimal.uint) : string :=
  "tmp_" +:+ NilEmpty.string_of_uint digits.

Definition scratchDir (w : World) (digits : Decimal.uint) : string :=
  filepath.Join (cwd w) (scratchName digits).

(** A call that touches the disk only at or below [root]. *)
Definition confined (w : World) (root : string) (c : call) : Prop :=
  match c with
  | CallTempDir _ => False
  | CallClone _ dir => within root (resolve w dir) = true
  | CallRemoveAll path => within root (resolve w path) = true
  | CallWalk dir => within root (resolve w dir) = true
  end.

(** A listed record the loop passes over: its name or its clone URL is
    missing or empty (lines 123-129). *)
Definition unusable (repo : github.Repository) : Prop :=
  github.Name repo = None \/ github.Name repo = Some "" \/
  github.CloneURL repo = None \/ github.CloneURL repo = Some "".

(** The name and clone URL of a record the loop takes up. *)
Definition target (repo : github.Repository) : option (string * string) :=
  match github.Name repo, github.CloneURL repo with
  | Some repoName, Some cloneURL =>
      if String.eqb repoName "" || String.eqb cloneURL "" then None
      else Some (repoName, cloneURL)
  | _, _ => None
  end.

(** Whether the clone of a target succeeds in a world. *)
Definition clones (w : World) (nu : string * string) : bool :=
  bool_decide (is_Some (PlainClone w (snd nu))).

(** What the walk function adds to [sensitiveRepo.Files] for one visited
    entry, if anything. *)
Definition finding (detect : list byte -> slice SensitivePos) (w : World)
    (repoDir : string) (filesToIgnore : gset string) (d : disk)
    (visit : string * entry) : option SensitiveFile :=
  match snd visit with
  | Directory => None
  | Regular _ =>
      relPath ← filepath.Rel repoDir (fst visit);
      if bool_decide (relPath ∈ filesToIgnore) then None
      else
        fileData ← ReadFile w (fst visit) d;
        positions ← detect fileData;
        Some {| Path := relPath; Positions := Some positions |}
  end.

(** The entries a crawl is to report, read off the specification: each
    listed record with a usable name and clone source is materialized and
    scanned in turn, on the disk its predecessors left, and contributes an
    entry exactly when its scan holds at least one finding. *)
Fixpoint reported (detect : list byte -> slice SensitivePos) (w : World)
    (tmpDir : string) (repos : list github.Repository) (d : disk)
    : list SensitiveRepo :=
  match repos with
  | [] => []
  | repo :: rest =>
      match target repo with
      | None => reported detect w tmpDir rest d
      | Some (repoName, cloneURL) =>
          match PlainClone w cloneURL with
          | None => reported detect w tmpDir rest d
          | Some t =>
              let repoDir := filepath.Join tmpDir repoName in
              let d2 := fst (RemoveAll w (filepath.Join repoDir ".git")
                               (d ++ place (resolve w repoDir) t)) in
              match snd (scanRepo detect w tmpDir repoName d2) with
              | Some (f :: fs) =>
                  {| Name := repoName; Files := Some (f :: fs) |}
                  :: reported detect w tmpDir rest d2
              | _ => reported detect w tmpDir rest d2
              end
          end
      end
  end.

(** A listed record whose name, when it has one, is a plain path element,
    as the names of GitHub repositories are. *)
Definition plainRecord (repo : github.Repository) : Prop :=
  forall repoName,
    github.Name repo = Some repoName -> repoName <> "" ->
    filepath.plain repoName = true.

(** The path a call hands to its collaborator. *)
Definition pathOf (c : call) : string :=
  match c with
  | CallTempDir path => path
  | CallClone _ dir => dir
  | CallRemoveAll path => path
  | CallWalk root => root
  end.

(** ** Sample worlds *)

(** A detector for exercising the crawl: every non-empty content is one
    finding, the whole file. *)
Definition wholeFile (fileData : list byte) : slice SensitivePos :=
  match fileData with
  | [] => None
  | _ => Some [ {| Start := 0; End := Z.of_nat (List.length fileData) |} ]
  end.

(** A run of forty base64 characters, no two alike: among forty-byte
    contents none has a higher Shannon entropy per byte. *)
Definition randomRun : list byte :=
  list_byte_of_string "q7Zx2LmN9vKp4RtY8sHw3BcF6jUd1GaE5oTiVe0+".

(** The organisation of the scenario in the specification's testable
    properties: [R1] holds [config.yml] with the run, the clone of [R2]
    fails, and [R3] lists its only other file in [.credignore]. *)
Definition scenario : World := {|
  ListByOrg := fun _ =>
    Some [ {| github.Name := Some "R1"; github.CloneURL := Some "https://example.org/R1.git" |};
           {| github.Name := Some "R2"; github.CloneURL := Some "https://example.org/R2.git" |};
           {| github.Name := Some "R3"; github.CloneURL := Some "https://example.org/R3.git" |} ];
  wd := "home/audit";
  Getwd_fails := false;
  TempDir_digits := Some (Decimal.D4 (Decimal.D2 Decimal.Nil));
  PlainClone := fun url =>
    if String.eqb url "https://example.org/R1.git" then
      Some [ (".git", Directory);
             (".git/HEAD", Regular (Some (list_byte_of_string "ref: refs/heads/master")));
             ("config.yml", Regular (Some randomRun)) ]
    else if String.eqb url "https://example.org/R3.git" then
      Some [ (".credignore", Regular (Some (list_byte_of_string "fake.key")));
             ("fake.key", Regular (Some randomRun)) ]
    else None;
  RemoveAll_fails := fun _ => false
|}.

(** The scenario's world when the listing call fails. *)
Definition unlisted : World := {|
  ListByOrg := fun _ => None;
  wd := wd scenario;
  Getwd_fails := false;
  TempDir_digits := TempDir_digits scenario;
  PlainClone := PlainClone scenario;
  RemoveAll_fails := RemoveAll_fails scenario
|}.

(** The scenario's world on a file system that refuses every removal. *)
Definition stubborn : World := {|
  ListByOrg := ListByOrg scenario;
  wd := wd scenario;
  Getwd_fails := false;
  TempDir_digits := TempDir_digits scenario;
  PlainClone := PlainClone scenario;
  RemoveAll_fails := fun _ => true
|}.

(** The disk once [R1] of the scenario is cloned and its [.git] removed: the
    repository has no [.credignore]. *)
Definition bareDisk : disk :=
  [ ("/home/audit/tmp_42", Directory);
    ("/home/audit/tmp_42/R1", Directory);
    ("/home/audit/tmp_42/R1/config.yml", Regular (Some randomRun)) ].

(** A clone of [R3] that also holds a directory [R3] with a [.credignore]
    of its own. *)
Definition nestedDisk : disk :=
  [ ("/home/audit/tmp_42", Directory);
    ("/home/audit/tmp_42/R3", Directory);
    ("/home/audit/tmp_42/R3/.credignore", Regular (Some (list_byte_of_string "fake.key")));
    ("/home/audit/tmp_42/R3/fake.key", Regular (Some randomRun));
    ("/home/audit/tmp_42/R3/R3", Directory);
    ("/home/audit/tmp_42/R3/R3/.credignore", Regular (Some randomRun)) ].

(** * Properties *)

(** ** The model on small inputs *)

Example Base_of_scratch : filepath.Base "/home/audit/tmp_42" = "tmp_42".
Proof. reflexivity. Qed.

Example Base_corner_cases :
  filepath.Base "" = "." /\ filepath.Base "///" = "/" /\ filepath.Base "a/b//" = "b".
Proof. repeat split. Qed.

Example Rel_of_walked_paths :
  filepath.Rel "tmp_42/R1" "tmp_42/R1" = Some "." /\
  filepath.Rel "tmp_42/R1" "tmp_42/R1/docs/api.md" = Some "docs/api.md".
Proof. split; reflexivity. Qed.

Example SplitLines_of_manifest :
  strings.SplitLines ("# keys" +:+ String "010" "fake.key" +:+ String "010" "")
  = ["# keys"; "fake.key"; ""] /\
  strings.SplitLines "" = [""].
Proof. split; reflexivity. Qed.

(** The calls of a crawl of the scenario, and the disk it leaves behind. *)
Example calls_of_scenario :
  calls (CrawlOrg scenario "org" [("/etc/hostname", Regular None)])
  = [ CallTempDir "/home/audit/tmp_42";
      CallClone "https://example.org/R1.git" "tmp_42/R1";
      CallRemoveAll "tmp_42/R1/.git"; CallWalk "tmp_42/R1";
      CallClone "https://example.org/R2.git" "tmp_42/R2";
      CallClone "https://example.org/R3.git" "tmp_42/R3";
      CallRemoveAll "tmp_42/R3/.git"; CallWalk "tmp_42/R3";
      CallRemoveAll "/home/audit/tmp_42" ] /\
  after (CrawlOrg scenario "org" [("/etc/hostname", Regular None)])
  = [("/etc/hostname", Regular None)].
Proof. split; vm_compute; reflexivity. Qed.

(** ** Strings and paths *)

#[local] Arguments String.append !_ _ / : simpl nomatch.

Lemma append_assoc (a b c : string) : (a +:+ b) +:+ c = a +:+ (b +:+ c).
Proof. induction a as [|x a IH]; simpl; [reflexivity | now rewrite IH]. Qed.

Lemma CutPrefix_app (p s : string) : strings.CutPrefix (p +:+ s) p = Some s.
Proof.
  induction p as [|a p IH]; simpl; [reflexivity|].
  now rewrite Ascii.eqb_refl.
Qed.

Lemma CutPrefix_Some (s p r : string) :
  strings.CutPrefix s p = Some r -> s = p +:+ r.
Proof.
  revert s; induction p as [|a p IH]; intros s; simpl.
  - now intros [= ->].
  - destruct s as [|b s]; [discriminate|].
    destruct (Ascii.eqb_spec a b) as [->|]; [|discriminate].
    intros H. now rewrite (IH _ H).
Qed.

Lemma within_spec (root path : string) :
  within root path = true <-> path = root \/ exists rel, path = filepath.Join root rel.
Proof.
  unfold within, filepath.Join. rewrite orb_true_iff, String.eqb_eq, bool_decide_eq_true.
  split; (intros [H|H]; [now left | right]).
  - destruct H as [rel H]. exists rel. apply CutPrefix_Some in H.
    now rewrite H, append_assoc.
  - destruct H as [rel ->]. exists rel. now rewrite <- append_assoc, CutPrefix_app.
Qed.

Lemma within_Join (root rel : string) : within root (filepath.Join root rel) = true.
Proof. apply within_spec. right. now exists rel. Qed.

(** Below a directory that lies below [root] is below [root]. *)
Lemma within_below (root rel path : string) :
  within (filepath.Join root rel) path = true -> within root path = true.
Proof.
  rewrite !within_spec. intros [->|[r ->]]; right.
  - now exists rel.
  - exists (filepath.Join rel r). unfold filepath.Join. now rewrite !append_assoc.
Qed.

Lemma hasSeparator_app (a b : string) :
  filepath.hasSeparator (a +:+ b) = filepath.hasSeparator a || filepath.hasSeparator b.
Proof.
  induction a as [|c a IH]; simpl; [reflexivity|].
  now rewrite IH, orb_assoc.
Qed.

Lemma trimTrailing_plain (n : string) :
  n <> "" -> filepath.hasSeparator n = false -> filepath.trimTrailing n = n.
Proof.
  induction n as [|c n IH]; [congruence|]. simpl. intros _ H.
  apply orb_false_iff in H as [Hc Hn].
  destruct n as [|c' n].
  - simpl. now rewrite Hc.
  - rewrite IH by (congruence || assumption). reflexivity.
Qed.

Lemma trimTrailing_app (a n : string) :
  n <> "" -> filepath.hasSeparator n = false ->
  filepath.trimTrailing (a +:+ n) = a +:+ n.
Proof.
  intros Hne Hn. induction a as [|c a IH]; simpl.
  - now apply trimTrailing_plain.
  - rewrite IH. destruct (a +:+ n) eqn:E; [|reflexivity].
    destruct a; simpl in E; [congruence | discriminate].
Qed.

Lemma lastElement_Join (a n : string) :
  filepath.hasSeparator n = false -> filepath.lastElement (filepath.Join a n) = n.
Proof.
  intros Hn. unfold filepath.Join. induction a as [|c a IH]; simpl.
  - now rewrite Hn.
  - now rewrite hasSeparator_app, orb_true_r.
Qed.

(** [Base] gives back the last element of a [Join]. *)
Lemma Base_Join (a n : string) :
  n <> "" -> filepath.hasSeparator n = false -> filepath.Base (filepath.Join a n) = n.
Proof.
  intros Hne Hn. unfold filepath.Base.
  destruct (filepath.Join a n) eqn:E.
  - destruct a; discriminate.
  - rewrite <- E. unfold filepath.Join at 1.
    rewrite <- append_assoc, trimTrailing_app by assumption.
    rewrite append_assoc. change (a +:+ "/" +:+ n) with (filepath.Join a n).
    rewrite lastElement_Join by exact Hn.
    destruct n; congruence.
Qed.

Lemma digits_plain (u : Decimal.uint) :
  filepath.hasSeparator (NilEmpty.string_of_uint u) = false.
Proof. induction u; simpl; auto. Qed.

(** ** Slices *)

Lemma append_neq {A} (s : slice A) (x : A) : append s x <> s.
Proof.
  unfold append. destruct s as [l|]; simpl; [|discriminate].
  intros [= H]. apply (f_equal (@List.length A)) in H.
  rewrite List.length_app in H. simpl in H. lia.
Qed.

Lemma append_inj {A} (s : slice A) (x y : A) : append s x = append s y -> x = y.
Proof.
  unfold append. intros [= H]. apply List.app_inv_head in H. now injection H.
Qed.

Lemma filled_nil {A} : filled (@None (list A)).
Proof. intros l; discriminate. Qed.

Lemma filled_append {A} (s : slice A) (x : A) : filled (append s x).
Proof. unfold append. intros l [= <-]. now destruct (items s). Qed.

Create HintDb crawl.
#[local] Hint Resolve filled_nil filled_append : crawl.

(** ** The walk *)

Section WalkFacts.

Variable detect : list byte -> slice SensitivePos.
Variable w : World.
Variables (repoDir : string) (filesToIgnore : gset string) (d : disk).

Abbreviation f := (walkFunc detect w repoDir filesToIgnore d).

(** The walk function returns [nil] on every path through it. *)
Lemma walkFunc_no_error path info files : fst (f path info files) = None.
Proof. unfold f, walkFunc. repeat case_match; reflexivity. Qed.

Lemma walkFunc_filled path info files :
  filled files -> filled (snd (f path info files)).
Proof. unfold f, walkFunc. repeat case_match; simpl; auto with crawl. Qed.

Lemma walkEntries_no_error entries files : fst (walkEntries f entries files) = None.
Proof.
  revert files. induction entries as [|[path info] rest IH]; intros files; simpl.
  - reflexivity.
  - pose proof (walkFunc_no_error path info files) as H.
    destruct (f path info files) as [[err|] files']; [discriminate | apply IH].
Qed.

Lemma walkEntries_filled entries files :
  filled files -> filled (snd (walkEntries f entries files)).
Proof.
  revert files. induction entries as [|[path info] rest IH]; intros files Hf; simpl.
  - exact Hf.
  - pose proof (walkFunc_no_error path info files) as H.
    pose proof (walkFunc_filled path info files Hf) as H'.
    destruct (f path info files) as [[err|] files']; [discriminate | now apply IH].
Qed.

(** The walk of a sequence of entries is the walk of its first part followed
    by the walk of the rest. *)
Lemma walkEntries_app before rest files :
  walkEntries f (before ++ rest) files
  = walkEntries f rest (snd (walkEntries f before files)).
Proof.
  revert files. induction before as [|[path info] before IH]; intros files; simpl.
  - reflexivity.
  - pose proof (walkFunc_no_error path info files) as H.
    destruct (f path info files) as [[err|] files']; [discriminate | apply IH].
Qed.

End WalkFacts.

Lemma scanRepo_no_error detect w tmpDir repoName d :
  fst (scanRepo detect w tmpDir repoName d) = None.
Proof. apply walkEntries_no_error. Qed.

Lemma scanRepo_filled detect w tmpDir repoName d :
  filled (snd (scanRepo detect w tmpDir repoName d)).
Proof. apply walkEntries_filled, filled_nil. Qed.

(** With [HasSensitive] as the detector the walk function never appends. *)
Lemma walkFunc_HasSensitive w repoDir filesToIgnore d path info files :
  walkFunc HasSensitive w repoDir filesToIgnore d path info files = (None, files).
Proof. unfold walkFunc, HasSensitive. repeat case_match; reflexivity. Qed.

Lemma scanRepo_HasSensitive w tmpDir repoName d :
  scanRepo HasSensitive w tmpDir repoName d = (None, None).
Proof.
  unfold scanRepo, Walk.
  generalize (visited (resolve w (filepath.Join tmpDir repoName))
                (filepath.Join tmpDir repoName) d).
  intros entries. induction entries as [|[path info] rest IH]; simpl.
  - reflexivity.
  - now rewrite walkFunc_HasSensitive.
Qed.

(** ** The loop over the repositories *)

Lemma crawlRepos_app detect w tmpDir before rest d srs :
  let o := crawlRepos detect w tmpDir before d srs in
  let o' := crawlRepos detect w tmpDir rest (after o) (report o) in
  crawlRepos detect w tmpDir (before ++ rest) d srs
  = {| report := report o'; after := after o'; calls := calls o ++ calls o' |}.
Proof.
  revert d srs. induction before as [|repo before IH]; intros d srs; simpl.
  - now destruct (crawlRepos detect w tmpDir rest d srs).
  - rewrite IH. simpl. now rewrite List.app_assoc.
Qed.

Lemma crawlRepo_turn detect w tmpDir repo d srs :
  turn repo srs (report (crawlRepo detect w tmpDir repo d srs)).
Proof.
  unfold crawlRepo.
  destruct (github.Name repo) as [repoName|] eqn:EN; [|constructor].
  destruct (String.eqb repoName ""); [constructor|].
  destruct (github.CloneURL repo) as [cloneURL|]; [|constructor].
  destruct (String.eqb cloneURL ""); [constructor|].
  destruct (PlainCloneContext w _ cloneURL d) as [d1|]; [|constructor].
  match goal with |- context [scanRepo ?a ?b ?c ?e ?g] =>
    pose proof (scanRepo_filled a b c e g) as Hf;
    destruct (scanRepo a b c e g) as [[err|] [fs|]] end;
    simpl; try constructor.
  - exact EN.
  - now apply Hf.
Qed.

Lemma turn_noEmptyEntry repo srs srs' :
  turn repo srs srs' -> noEmptyEntry srs -> noEmptyEntry srs'.
Proof.
  intros [|repoName fs _ Hfs] H; [exact H|].
  intros sr. unfold append. simpl. rewrite List.in_app_iff.
  intros [Hin|[<-|[]]]; [now apply H | exact Hfs].
Qed.

Lemma crawlRepos_noEmptyEntry detect w tmpDir repos d srs :
  noEmptyEntry srs -> noEmptyEntry (report (crawlRepos detect w tmpDir repos d srs)).
Proof.
  revert d srs. induction repos as [|repo rest IH]; intros d srs H; simpl.
  - exact H.
  - apply IH. eapply turn_noEmptyEntry; [apply crawlRepo_turn | exact H].
Qed.

(** The report of [CrawlOrg] is [nil] or the report of its loop. *)
Lemma crawlOrg_report detect w orgName d :
  report (crawlOrg detect w orgName d) = None \/
  exists repos tmpDir d1,
    report (crawlOrg detect w orgName d)
    = report (crawlRepos detect w tmpDir repos d1 None).
Proof.
  unfold crawlOrg.
  destruct (ListByOrg w orgName) as [repos|]; [|now left].
  destruct (Getwd w) as [dir|]; [|now left].
  destruct (TempDir w dir "tmp_" d) as [[tmpDir0 d1]|]; [|now left].
  right. now exists repos, (filepath.Base tmpDir0), d1.
Qed.

(** ** The detector *)

(** C1. The detector is to answer a file of pure random base64 above the
    entropy threshold with at least one finding inside the run.  On the run
    of forty distinct base64 characters [HasSensitive] returns [nil], no
    finding at all, and the crawl of the scenario organisation, whose [R1]
    holds that run in [config.yml], reports nothing. *)
Theorem HasSensitive_misses_random_run :
  List.length randomRun = 40 /\
  List.length (List.nodup Byte.byte_eq_dec randomRun) = 40 /\
  items (HasSensitive randomRun) = [] /\
  report (CrawlOrg scenario "org" []) = None.
Proof. repeat split; vm_compute; reflexivity. Qed.

(** ** The report *)

Lemma crawlRepo_HasSensitive w tmpDir repo d srs :
  report (crawlRepo HasSensitive w tmpDir repo d srs) = srs.
Proof.
  unfold crawlRepo. repeat case_match; try reflexivity;
    match goal with H : scanRepo HasSensitive _ _ _ _ = _ |- _ =>
      rewrite scanRepo_HasSensitive in H; discriminate end.
Qed.

Lemma crawlRepos_HasSensitive w tmpDir repos d srs :
  report (crawlRepos HasSensitive w tmpDir repos d srs) = srs.
Proof.
  revert d srs. induction repos as [|repo rest IH]; intros d srs; simpl.
  - reflexivity.
  - now rewrite IH, crawlRepo_HasSensitive.
Qed.

(** C2. For every input byte slice [HasSensitive] returns [nil];
    consequently, for every listing result and every repository content,
    [CrawlOrg] returns a [nil] report: no repository ever contributes a
    [SensitiveRepo]. *)
Theorem HasSensitive_nil_CrawlOrg_nil :
  (forall fileData, HasSensitive fileData = None) /\
  (forall w orgName d, report (CrawlOrg w orgName d) = None).
Proof.
  split; [reflexivity|]. intros w orgName d.
  destruct (crawlOrg_report HasSensitive w orgName d) as [H|(repos & tmpDir & d1 & H)];
    unfold CrawlOrg; rewrite H; [reflexivity | apply crawlRepos_HasSensitive].
Qed.

(** ** Failures *)

Lemma crawlRepo_cloneFails detect w tmpDir repo d srs :
  cloneFails w repo ->
  report (crawlRepo detect w tmpDir repo d srs) = srs /\
  after (crawlRepo detect w tmpDir repo d srs) = d.
Proof.
  intros (repoName & cloneURL & HN & HNe & HU & HUe & HC).
  unfold crawlRepo, PlainCloneContext. rewrite HN, HU, HC.
  apply String.eqb_neq in HNe, HUe. rewrite HNe, HUe. now split.
Qed.

Lemma crawlRepos_skip detect w tmpDir before failed rest d srs :
  cloneFails w failed ->
  report (crawlRepos detect w tmpDir (before ++ failed :: rest) d srs)
  = report (crawlRepos detect w tmpDir (before ++ rest) d srs) /\
  after (crawlRepos detect w tmpDir (before ++ failed :: rest) d srs)
  = after (crawlRepos detect w tmpDir (before ++ rest) d srs).
Proof.
  intros Hf. rewrite !crawlRepos_app. simpl.
  destruct (crawlRepo_cloneFails detect w tmpDir failed
              (after (crawlRepos detect w tmpDir before d srs))
              (report (crawlRepos detect w tmpDir before d srs)) Hf) as [-> ->].
  now split.
Qed.

Lemma crawlRepos_relisted detect w listed tmpDir repos d srs :
  crawlRepos detect (relisted w listed) tmpDir repos d srs
  = crawlRepos detect w tmpDir repos d srs.
Proof.
  revert d srs. induction repos as [|repo rest IH]; intros d srs; simpl.
  - reflexivity.
  - rewrite IH. reflexivity.
Qed.

(** C6. If the repository-listing call fails, or the scratch workspace
    cannot be created ([os.Getwd] or [ioutil.TempDir] fails), [CrawlOrg]
    returns at once: the report is [nil], no collaborator call was made (no
    clone, no walk), and the disk is as it was. *)
Theorem fatal_errors_abort detect w orgName d :
  ListByOrg w orgName = None \/ Getwd_fails w = true \/ TempDir_digits w = None ->
  crawlOrg detect w orgName d = {| report := None; after := d; calls := [] |}.
Proof.
  unfold crawlOrg, Getwd, TempDir. intros [H|[H|H]]; rewrite ?H.
  - reflexivity.
  - now destruct (ListByOrg w orgName).
  - destruct (ListByOrg w orgName); [|reflexivity]. now destruct (Getwd_fails w).
Qed.

Lemma fatal_errors_abort_witness :
  crawlOrg wholeFile unlisted "org" [("/etc/hostname", Regular (Some randomRun))]
  = {| report := None; after := [("/etc/hostname", Regular (Some randomRun))]; calls := [] |}.
Proof. apply fatal_errors_abort. left. reflexivity. Defined.

(** C8. A file whose bytes cannot be read adds no finding and returns no
    error from the walk function, so the walk goes on to the remaining
    entries: the walk of a tree with such a file yields what the walk of the
    tree without it yields, and the scan of a repository never ends in an
    error. *)
Theorem read_failure_skips_file detect w repoDir filesToIgnore d path info :
  ReadFile w path d = None ->
  (forall files,
     walkFunc detect w repoDir filesToIgnore d path info files = (None, files)) /\
  (forall before rest files,
     walkEntries (walkFunc detect w repoDir filesToIgnore d)
       (before ++ (path, info) :: rest) files
     = walkEntries (walkFunc detect w repoDir filesToIgnore d) (before ++ rest) files) /\
  (forall tmpDir repoName d', fst (scanRepo detect w tmpDir repoName d') = None).
Proof.
  intros HR.
  assert (Hskip : forall files,
    walkFunc detect w repoDir filesToIgnore d path info files = (None, files)).
  { intros files. unfold walkFunc. rewrite HR. repeat case_match; reflexivity. }
  split; [exact Hskip|]. split.
  - intros before rest files. rewrite !walkEntries_app. simpl. now rewrite Hskip.
  - intros. apply scanRepo_no_error.
Qed.

Lemma read_failure_skips_file_witness :
  walkFunc wholeFile scenario "tmp_42/R1" ∅
    [("/home/audit/tmp_42/R1/locked", Regular None)]
    "tmp_42/R1/locked" (Regular None) None
  = (None, None).
Proof.
  apply (proj1 (read_failure_skips_file wholeFile scenario "tmp_42/R1" ∅
                  [("/home/audit/tmp_42/R1/locked", Regular None)]
                  "tmp_42/R1/locked" (Regular None) eq_refl)).
Defined.

(** ** The scratch directory *)

Lemma without_app path (d d' : disk) :
  without path (d ++ d') = without path d ++ without path d'.
Proof. apply List.filter_app. Qed.

Lemma without_place root name (t : tree) :
  without root (place (filepath.Join root name) t) = [].
Proof.
  unfold without, place. simpl. rewrite within_Join. simpl.
  induction t as [|[rel e] t IH]; simpl; [reflexivity|].
  now rewrite (within_below root name _ (within_Join _ rel)).
Qed.

(** Removing a subtree of [root] first changes nothing of what is left
    once [root] is removed. *)
Lemma without_without root rel (d : disk) :
  without root (without (filepath.Join root rel) d) = without root d.
Proof.
  unfold without. induction d as [|[q e] d IH]; simpl; [reflexivity|].
  destruct (within (filepath.Join root rel) q) eqn:E; simpl.
  - now rewrite (within_below _ _ _ E).
  - now rewrite IH.
Qed.

Lemma without_sound root (d : disk) q e :
  In (q, e) (without root d) -> within root q = false /\ In (q, e) d.
Proof.
  unfold without. rewrite List.filter_In. simpl.
  intros [H1 H2]. split; [now apply negb_true_iff | exact H1].
Qed.

Section Scratch.

Variable detect : list byte -> slice SensitivePos.
Variable w : World.
Variable digits : Decimal.uint.

Abbreviation name := (scratchName digits).
Abbreviation tmpDir0 := (scratchDir w digits).

Lemma resolve_tmpDir0 : resolve w tmpDir0 = tmpDir0.
Proof. reflexivity. Qed.

Lemma Base_tmpDir0 : filepath.Base tmpDir0 = name.
Proof.
  apply Base_Join; [discriminate|].
  unfold scratchName. rewrite hasSeparator_app. apply digits_plain.
Qed.

(** A path relative to the base of the scratch directory resolves below
    the scratch directory. *)
Lemma resolve_below rel :
  resolve w (filepath.Join name rel) = filepath.Join tmpDir0 rel.
Proof.
  unfold resolve, scratchDir, scratchName, filepath.Join. simpl.
  now rewrite !append_assoc.
Qed.

Lemma resolve_below2 rel rel' :
  resolve w (filepath.Join (filepath.Join name rel) rel')
  = filepath.Join (filepath.Join tmpDir0 rel) rel'.
Proof.
  unfold resolve, scratchDir, scratchName, filepath.Join. simpl.
  now rewrite !append_assoc.
Qed.

Lemma crawlRepo_confined repo d srs :
  without tmpDir0 (after (crawlRepo detect w name repo d srs)) = without tmpDir0 d /\
  Forall (confined w tmpDir0) (calls (crawlRepo detect w name repo d srs)).
Proof.
  assert (Hdir : forall rel, within tmpDir0 (resolve w (filepath.Join name rel)) = true).
  { intros rel. rewrite resolve_below. apply within_Join. }
  assert (Hgit : forall rel rel',
    within tmpDir0 (resolve w (filepath.Join (filepath.Join name rel) rel')) = true).
  { intros rel rel'. rewrite resolve_below2.
    apply (within_below tmpDir0 rel), within_Join. }
  unfold crawlRepo.
  destruct (github.Name repo) as [repoName|]; [|now split].
  destruct (String.eqb repoName ""); [now split|].
  destruct (github.CloneURL repo) as [cloneURL|]; [|now split].
  destruct (String.eqb cloneURL ""); [now split|].
  unfold PlainCloneContext.
  destruct (PlainClone w cloneURL) as [t|]; simpl.
  2: { split; [reflexivity|]. repeat constructor. apply Hdir. }
  assert (Hd2 : without tmpDir0
    (fst (RemoveAll w (filepath.Join (filepath.Join name repoName) ".git")
            (d ++ place (resolve w (filepath.Join name repoName)) t)))
    = without tmpDir0 d).
  { unfold RemoveAll. rewrite resolve_below, resolve_below2.
    destruct (RemoveAll_fails w _); simpl.
    - now rewrite without_app, without_place, List.app_nil_r.
    - replace (filepath.Join (filepath.Join tmpDir0 repoName) ".git")
        with (filepath.Join tmpDir0 (filepath.Join repoName ".git"))
        by (unfold filepath.Join; now rewrite !append_assoc).
      now rewrite without_without, without_app, without_place, List.app_nil_r. }
  assert (Hc : Forall (confined w tmpDir0)
    [CallClone cloneURL (filepath.Join name repoName);
     CallRemoveAll (filepath.Join (filepath.Join name repoName) ".git");
     CallWalk (filepath.Join name repoName)]).
  { repeat constructor; simpl; auto. }
  destruct (scanRepo detect w name repoName _) as [[err|] [fs|]]; simpl; now split.
Qed.

Lemma crawlRepos_confined repos d srs :
  without tmpDir0 (after (crawlRepos detect w name repos d srs)) = without tmpDir0 d /\
  Forall (confined w tmpDir0) (calls (crawlRepos detect w name repos d srs)).
Proof.
  revert d srs. induction repos as [|repo rest IH]; intros d srs; simpl.
  - now split.
  - destruct (crawlRepo_confined repo d srs) as [H1 H2].
    destruct (IH (after (crawlRepo detect w name repo d srs))
                 (report (crawlRepo detect w name repo d srs))) as [H3 H4].
    split; [now rewrite H3 | now apply Forall_app].
Qed.

End Scratch.

(** ** The exclusion manifest *)

Lemma isEntry_spec (f : string) :
  isEntry f = true <-> f <> "" /\ forall rest, f <> String "#" rest.
Proof.
  destruct f as [|c f]; simpl.
  - split; [discriminate | now intros [H _]].
  - rewrite negb_true_iff. split.
    + intros H. split; [discriminate|]. intros rest [= -> _]. discriminate.
    + intros [_ H]. destruct (Ascii.eqb_spec c "#") as [->|]; [|reflexivity].
      now destruct (H f).
Qed.

(** The lines loop adds exactly the lines that are entries. *)
Lemma addIgnored_spec (ignoreList : list string) (filesToIgnore : gset string) f :
  f ∈ addIgnored ignoreList filesToIgnore <->
  f ∈ filesToIgnore \/ (In f ignoreList /\ isEntry f = true).
Proof.
  revert filesToIgnore. induction ignoreList as [|l rest IH]; intros S; simpl.
  - split; [now left | now intros [H|[[] _]]].
  - destruct (isEntry l) eqn:E; rewrite IH.
    + rewrite elem_of_union, elem_of_singleton. split.
      * intros [[->|H]|[H1 H2]]; auto.
      * intros [H|[[<-|H1] H2]]; auto.
    + split.
      * intros [H|[H1 H2]]; auto.
      * intros [H|[[<-|H1] H2]]; auto. congruence.
Qed.

(** In the scan of a repository without a manifest the set of files to
    ignore is empty: the reservation of line 152 is made only when
    [os.Stat] finds the manifest. *)
Lemma manifest_absent_nothing_reserved :
  after (crawlRepo wholeFile scenario "tmp_42"
           {| github.Name := Some "R1"; github.CloneURL := Some "https://example.org/R1.git" |}
           [("/home/audit/tmp_42", Directory)] None) = bareDisk /\
  Stat scenario "tmp_42/R1/.credignore" bareDisk = false /\
  (filepath.Join "R1" credIgnoreFile ∉ resolveIgnore scenario "tmp_42" "R1" bareDisk) /\
  (credIgnoreFile ∉ resolveIgnore scenario "tmp_42" "R1" bareDisk).
Proof.
  split; [vm_compute; reflexivity|]. split; [vm_compute; reflexivity|].
  assert (E : resolveIgnore scenario "tmp_42" "R1" bareDisk = ∅) by reflexivity.
  rewrite E. split; apply not_elem_of_empty.
Qed.

(** C7. A file is to be excluded exactly when its path relative to the
    repository is string-equal to a manifest entry.  In the clone of [R3]
    the manifest's only line is [fake.key], yet the file [R3/.credignore],
    readable and flagged by the detector, is excluded from the scan: line
    152 reserves [filepath.Join(repoName, credIgnoreFile)], a path relative
    to the scratch directory, in a set looked up by paths relative to the
    repository. *)
Theorem excluded_without_manifest_entry :
  ReadFile scenario "tmp_42/R3/.credignore" nestedDisk
  = Some (list_byte_of_string "fake.key") /\
  strings.SplitLines (string_of_list_byte (list_byte_of_string "fake.key")) = ["fake.key"] /\
  filepath.Rel "tmp_42/R3" "tmp_42/R3/R3/.credignore" = Some "R3/.credignore" /\
  ReadFile scenario "tmp_42/R3/R3/.credignore" nestedDisk = Some randomRun /\
  wholeFile randomRun <> None /\
  walkFunc wholeFile scenario "tmp_42/R3"
    (resolveIgnore scenario "tmp_42" "R3" nestedDisk) nestedDisk
    "tmp_42/R3/R3/.credignore" (Regular (Some randomRun)) None
  = (None, None).
Proof. repeat split; try discriminate; vm_compute; reflexivity. Qed.

(** * Further properties of the crawl *)

(** ** The shape of one turn of the loop *)

Lemma target_unusable repo : unusable repo -> target repo = None.
Proof.
  unfold unusable, target. intros [H|[H|[H|H]]]; rewrite H; try reflexivity.
  - now destruct (github.CloneURL repo).
  - now destruct (github.Name repo).
  - destruct (github.Name repo); [|reflexivity]. simpl.
    now rewrite orb_true_r.
Qed.

Lemma clones_spec w repoName cloneURL :
  clones w (repoName, cloneURL)
  = match PlainClone w cloneURL with Some _ => true | None => false end.
Proof. unfold clones. simpl. now destruct (PlainClone w cloneURL). Qed.

(** One turn, by the record it meets and the answer of the clone. *)
Lemma crawlRepo_shape detect w tmpDir repo d srs :
  match target repo with
  | None =>
      crawlRepo detect w tmpDir repo d srs
      = {| report := srs; after := d; calls := [] |}
  | Some (repoName, cloneURL) =>
      let repoDir := filepath.Join tmpDir repoName in
      match PlainClone w cloneURL with
      | None =>
          crawlRepo detect w tmpDir repo d srs
          = {| report := srs; after := d; calls := [CallClone cloneURL repoDir] |}
      | Some t =>
          let gitDir := filepath.Join repoDir ".git" in
          let d2 := fst (RemoveAll w gitDir (d ++ place (resolve w repoDir) t)) in
          crawlRepo detect w tmpDir repo d srs
          = {| report :=
                 match snd (scanRepo detect w tmpDir repoName d2) with
                 | Some fs => append srs {| Name := repoName; Files := Some fs |}
                 | None => srs
                 end;
               after := d2;
               calls := [CallClone cloneURL repoDir; CallRemoveAll gitDir;
                         CallWalk repoDir] |}
      end
  end.
Proof.
  unfold target, crawlRepo, PlainCloneContext.
  destruct (github.Name repo) as [repoName|]; [|reflexivity].
  destruct (github.CloneURL repo) as [cloneURL|];
    [|now destruct (String.eqb repoName "")].
  destruct (String.eqb repoName ""); [reflexivity|].
  destruct (String.eqb cloneURL ""); [reflexivity|]. simpl.
  destruct (PlainClone w cloneURL) as [t|]; [|reflexivity].
  pose proof (scanRepo_no_error detect w tmpDir repoName
    (fst (RemoveAll w (filepath.Join (filepath.Join tmpDir repoName) ".git")
            (d ++ place (resolve w (filepath.Join tmpDir repoName)) t)))) as He.
  destruct (scanRepo detect w tmpDir repoName _) as [err [fs|]];
    simpl in He; subst err; reflexivity.
Qed.

(** X1. A listed record without a usable name or clone URL is passed over
    in silence: the crawl of a listing that holds it makes the same calls
    and ends with the same report and disk as the crawl of the listing
    without it. *)
Theorem unusable_record_skipped detect w tmpDir before repo rest d srs :
  unusable repo ->
  crawlRepos detect w tmpDir (before ++ repo :: rest) d srs
  = crawlRepos detect w tmpDir (before ++ rest) d srs.
Proof.
  intros H. rewrite !crawlRepos_app. simpl.
  pose proof (crawlRepo_shape detect w tmpDir repo
                (after (crawlRepos detect w tmpDir before d srs))
                (report (crawlRepos detect w tmpDir before d srs))) as Hs.
  rewrite (target_unusable repo H) in Hs. rewrite Hs. simpl.
  now destruct (crawlRepos detect w tmpDir rest _ _).
Qed.

Lemma unusable_record_skipped_witness :
  crawlRepos wholeFile scenario "tmp_42"
    ([ {| github.Name := Some "R1"; github.CloneURL := Some "https://example.org/R1.git" |} ]
     ++ {| github.Name := Some "R4"; github.CloneURL := None |}
     :: [ {| github.Name := Some "R3"; github.CloneURL := Some "https://example.org/R3.git" |} ])
    [] None
  = crawlRepos wholeFile scenario "tmp_42"
      ([ {| github.Name := Some "R1"; github.CloneURL := Some "https://example.org/R1.git" |} ]
       ++ [ {| github.Name := Some "R3"; github.CloneURL := Some "https://example.org/R3.git" |} ])
      [] None.
Proof.
  apply (unusable_record_skipped wholeFile scenario "tmp_42").
  right. right. left. reflexivity.
Defined.

(** X3. The report only grows at its end and follows the listing: the
    crawl keeps the entries it started with, and the names of the entries it
    adds are, in listing order, names of listed records whose clone
    succeeds. *)
Theorem report_follows_listing detect w tmpDir repos d srs :
  exists added,
    items (report (crawlRepos detect w tmpDir repos d srs)) = items srs ++ added /\
    sublist (List.map Name added)
      (List.map fst (List.filter (clones w) (omap target repos))).
Proof.
  revert d srs. induction repos as [|repo rest IH]; intros d srs; simpl.
  - exists []. split; [now rewrite List.app_nil_r | constructor].
  - destruct (IH (after (crawlRepo detect w tmpDir repo d srs))
                 (report (crawlRepo detect w tmpDir repo d srs))) as (added & E & Hsub).
    pose proof (crawlRepo_shape detect w tmpDir repo d srs) as Hs.
    destruct (target repo) as [[repoName cloneURL]|]; simpl in Hs.
    + cbn [List.filter]. rewrite clones_spec.
      destruct (PlainClone w cloneURL) as [t|]; rewrite Hs in E |- *; simpl in E |- *.
      * destruct (snd (scanRepo detect w tmpDir repoName _)) as [fs|].
        -- exists ({| Name := repoName; Files := Some fs |} :: added).
           split; [|simpl; now constructor].
           rewrite E. unfold append. simpl. now rewrite <- List.app_assoc.
        -- exists added. split; [exact E | now constructor].
      * exists added. now split.
    + rewrite Hs in E |- *. exists added. now split.
Qed.

(** ** What a scan reports *)

Lemma walkFunc_finding detect w repoDir filesToIgnore d path info files :
  walkFunc detect w repoDir filesToIgnore d path info files
  = (None,
     match finding detect w repoDir filesToIgnore d (path, info) with
     | Some sf => append files sf
     | None => files
     end).
Proof.
  unfold walkFunc, finding. simpl. destruct info as [|data]; simpl; [reflexivity|].
  destruct (filepath.Rel repoDir path) as [relPath|]; simpl; [|reflexivity].
  destruct (bool_decide (relPath ∈ filesToIgnore)); [reflexivity|].
  destruct (ReadFile w path d) as [fileData|]; simpl; [|reflexivity].
  now destruct (detect fileData).
Qed.

Lemma walkEntries_findings detect w repoDir filesToIgnore d entries files :
  snd (walkEntries (walkFunc detect w repoDir filesToIgnore d) entries files)
  = match omap (finding detect w repoDir filesToIgnore d) entries with
    | [] => files
    | fs => Some (items files ++ fs)
    end.
Proof.
  revert files. induction entries as [|[path info] rest IH]; intros files.
  - reflexivity.
  - cbn [walkEntries]. rewrite walkFunc_finding, IH.
    change (omap (finding detect w repoDir filesToIgnore d) ((path, info) :: rest))
      with (match finding detect w repoDir filesToIgnore d (path, info) with
            | Some sf => sf :: omap (finding detect w repoDir filesToIgnore d) rest
            | None => omap (finding detect w repoDir filesToIgnore d) rest
            end).
    destruct (finding detect w repoDir filesToIgnore d (path, info)) as [sf|];
      [|reflexivity].
    destruct (omap (finding detect w repoDir filesToIgnore d) rest) as [|sf' fs];
      [reflexivity|].
    unfold append. simpl. now rewrite <- List.app_assoc.
Qed.

(** The files of a scan are the findings of the visited entries, in the
    order of the walk. *)
Lemma scanRepo_items detect w tmpDir repoName d :
  items (snd (scanRepo detect w tmpDir repoName d))
  = omap (finding detect w (filepath.Join tmpDir repoName)
            (resolveIgnore w tmpDir repoName d) d)
      (visited (resolve w (filepath.Join tmpDir repoName))
         (filepath.Join tmpDir repoName) d).
Proof.
  unfold scanRepo, Walk. rewrite walkEntries_findings.
  now destruct (omap _ _).
Qed.

Lemma Join_neq (root rel : string) : filepath.Join root rel <> root.
Proof.
  unfold filepath.Join. intros H. apply (f_equal String.length) in H.
  revert H. induction root as [|c root IH]; simpl; [discriminate|].
  intros [= H]. now apply IH.
Qed.

Lemma CutPrefix_Join (root rel : string) :
  strings.CutPrefix (filepath.Join root rel) (root +:+ "/") = Some rel.
Proof. unfold filepath.Join. now rewrite <- append_assoc, CutPrefix_app. Qed.

Lemma Rel_Join (root rel : string) :
  filepath.Rel root (filepath.Join root rel) = Some rel.
Proof.
  unfold filepath.Rel.
  destruct (String.eqb_spec (filepath.Join root rel) root) as [E|_];
    [now apply Join_neq in E|].
  unfold filepath.Join. now rewrite <- append_assoc, CutPrefix_app.
Qed.

Lemma Rel_self (root : string) : filepath.Rel root root = Some ".".
Proof. unfold filepath.Rel. now rewrite String.eqb_refl. Qed.

(** Where a visited entry comes from on the disk. *)
Lemma visited_spec absRoot root (d : disk) path info :
  In (path, info) (visited absRoot root d) <->
  exists q, In (q, info) d /\
    ((q = absRoot /\ path = root) \/
     (q <> absRoot /\ exists rel, q = filepath.Join absRoot rel /\
                                  path = filepath.Join root rel)).
Proof.
  unfold visited. rewrite <- list_elem_of_In, list_elem_of_omap. split.
  - intros ([q e] & Hin & H). simpl in H. apply list_elem_of_In in Hin.
    destruct (String.eqb_spec q absRoot) as [->|Hne].
    + injection H as <- <-. exists absRoot. split; [exact Hin | now left].
    + destruct (strings.CutPrefix q (absRoot +:+ "/")) as [rel|] eqn:E;
        [|discriminate].
      simpl in H. injection H as <- <-. exists q. split; [exact Hin|]. right.
      split; [exact Hne|]. exists rel. split; [|reflexivity].
      apply CutPrefix_Some in E. unfold filepath.Join. now rewrite E, append_assoc.
  - intros (q & Hin & H). exists (q, info). split; [now apply list_elem_of_In|].
    simpl. destruct H as [[-> ->]|(Hne & rel & -> & ->)].
    + now rewrite String.eqb_refl.
    + apply String.eqb_neq in Hne. rewrite Hne, CutPrefix_Join. reflexivity.
Qed.

(** X4. The walk function never takes its relative-path error branch
    (lines 180-183): for every entry a walk from [root] visits,
    [filepath.Rel(root, path)] succeeds; it is [.] for the root itself and
    the path below the root for every other entry. *)
Theorem walked_paths_are_relative w root d path info :
  In (path, info) (visited (resolve w root) root d) ->
  filepath.Rel root path = Some "." /\ path = root \/
  exists rel, filepath.Rel root path = Some rel /\ path = filepath.Join root rel.
Proof.
  intros H. apply visited_spec in H as (q & _ & [[_ ->]|(_ & rel & _ & ->)]).
  - left. split; [apply Rel_self | reflexivity].
  - right. exists rel. split; [apply Rel_Join | reflexivity].
Qed.

Lemma walked_paths_are_relative_witness :
  filepath.Rel "tmp_42/R3" "tmp_42/R3/fake.key" = Some "." /\
  "tmp_42/R3/fake.key" = "tmp_42/R3" \/
  exists rel, filepath.Rel "tmp_42/R3" "tmp_42/R3/fake.key" = Some rel /\
              "tmp_42/R3/fake.key" = filepath.Join "tmp_42/R3" rel.
Proof.
  apply (walked_paths_are_relative scenario "tmp_42/R3" nestedDisk
           "tmp_42/R3/fake.key" (Regular (Some randomRun))).
  vm_compute. tauto.
Defined.

(** X5. What a scan reports, exactly: a file is in the [Files] of a
    repository's scan if and only if the walk visits a regular file whose
    path relative to the repository is the reported [Path], that path is
    not in the set of files to ignore, the file can be read, and the
    detector returns a non-nil sequence of positions for its bytes, which
    are the reported [Positions]. *)
Theorem scan_reports_exactly detect w tmpDir repoName d sf :
  In sf (items (snd (scanRepo detect w tmpDir repoName d))) <->
  exists path data fileData positions,
    In (path, Regular data)
       (visited (resolve w (filepath.Join tmpDir repoName))
          (filepath.Join tmpDir repoName) d) /\
    filepath.Rel (filepath.Join tmpDir repoName) path = Some (Path sf) /\
    (Path sf ∉ resolveIgnore w tmpDir repoName d) /\
    ReadFile w path d = Some fileData /\
    detect fileData = Some positions /\
    Positions sf = Some positions.
Proof.
  rewrite scanRepo_items, <- list_elem_of_In, list_elem_of_omap. split.
  - intros ([path info] & Hin & H). apply list_elem_of_In in Hin.
    unfold finding in H. simpl in H. destruct info as [|data]; [discriminate|].
    destruct (filepath.Rel _ path) as [relPath|] eqn:ER; simpl in H; [|discriminate].
    destruct (bool_decide_reflect (relPath ∈ resolveIgnore w tmpDir repoName d));
      [discriminate|].
    destruct (ReadFile w path d) as [fileData|] eqn:EF; simpl in H; [|discriminate].
    destruct (detect fileData) as [positions|] eqn:ED; simpl in H; [|discriminate].
    injection H as <-. simpl. now exists path, data, fileData, positions.
  - intros (path & data & fileData & positions & Hin & HR & Hout & HF & HD & HP).
    exists (path, Regular data). split; [now apply list_elem_of_In|].
    unfold finding. simpl. rewrite HR. simpl.
    rewrite bool_decide_eq_false_2 by exact Hout. rewrite HF. simpl.
    rewrite HD. simpl. destruct sf as [p ps]. simpl in *. now subst.
Qed.

(** X6. Exclusion: when the manifest of a repository is read, a path given
    on a manifest line that is neither empty nor a comment is never the
    [Path] of a file its scan reports. *)
Theorem manifest_line_never_reported detect w tmpDir repoName d ignoreData f sf :
  Stat w (filepath.Join (filepath.Join tmpDir repoName) credIgnoreFile) d = true ->
  ReadFile w (filepath.Join (filepath.Join tmpDir repoName) credIgnoreFile) d
  = Some ignoreData ->
  In f (strings.SplitLines (string_of_list_byte ignoreData)) ->
  isEntry f = true ->
  In sf (items (snd (scanRepo detect w tmpDir repoName d))) ->
  Path sf <> f.
Proof.
  intros HS HR Hf He Hin Heq.
  rewrite scanRepo_items, <- list_elem_of_In, list_elem_of_omap in Hin.
  destruct Hin as ([path info] & _ & H). unfold finding in H. simpl in H.
  destruct info as [|data]; [discriminate|].
  destruct (filepath.Rel _ path) as [relPath|]; simpl in H; [|discriminate].
  destruct (bool_decide_reflect (relPath ∈ resolveIgnore w tmpDir repoName d))
    as [|Hout]; [discriminate|].
  destruct (ReadFile w path d) as [fileData|]; simpl in H; [|discriminate].
  destruct (detect fileData) as [positions|]; simpl in H; [|discriminate].
  injection H as <-. simpl in Heq. subst relPath. apply Hout.
  unfold resolveIgnore. rewrite HS, HR. apply addIgnored_spec. now right.
Qed.

Lemma manifest_line_never_reported_witness :
  Path {| Path := ".credignore"; Positions := Some [ {| Start := 0; End := 8 |} ] |}
  <> "fake.key".
Proof.
  apply (manifest_line_never_reported wholeFile scenario "tmp_42" "R3" nestedDisk
           (list_byte_of_string "fake.key") "fake.key"
           {| Path := ".credignore"; Positions := Some [ {| Start := 0; End := 8 |} ] |});
    [reflexivity | reflexivity | left; reflexivity | reflexivity
    | vm_compute; left; reflexivity].
Defined.

(** ** The [.git] directory *)

Lemma IsAbs_Join (a b x : string) :
  filepath.IsAbs (filepath.Join (filepath.Join a b) x)
  = filepath.IsAbs (filepath.Join a b).
Proof. now destruct a. Qed.

(** Resolving a path below a joined path resolves the joined path. *)
Lemma resolve_Join w (a b x : string) :
  resolve w (filepath.Join (filepath.Join a b) x)
  = filepath.Join (resolve w (filepath.Join a b)) x.
Proof.
  unfold resolve. rewrite IsAbs_Join.
  destruct (filepath.IsAbs (filepath.Join a b)); [reflexivity|].
  unfold filepath.Join. now rewrite !append_assoc.
Qed.

Lemma within_refl (root : string) : within root root = true.
Proof. apply within_spec. now left. Qed.

Lemma Join_assoc (a b c : string) :
  filepath.Join a (filepath.Join b c) = filepath.Join (filepath.Join a b) c.
Proof. unfold filepath.Join. now rewrite !append_assoc. Qed.

(** Once [.git] is removed, a scan reports nothing at or below [.git]. *)
Lemma scanRepo_outside_git detect w tmpDir repoName d1 sf :
  RemoveAll_fails w
    (resolve w (filepath.Join (filepath.Join tmpDir repoName) ".git")) = false ->
  In sf (items (snd (scanRepo detect w tmpDir repoName
           (fst (RemoveAll w (filepath.Join (filepath.Join tmpDir repoName) ".git") d1))))) ->
  within ".git" (Path sf) = false.
Proof.
  intros Hok. unfold RemoveAll. rewrite Hok. simpl.
  rewrite scanRepo_items, <- list_elem_of_In, list_elem_of_omap.
  intros ([path info] & Hin & H). apply list_elem_of_In, visited_spec in Hin.
  unfold finding in H. simpl in H. destruct info as [|data]; [discriminate|].
  destruct (filepath.Rel _ path) as [relPath|] eqn:ER; simpl in H; [|discriminate].
  destruct (bool_decide (relPath ∈ _)); [discriminate|].
  destruct (ReadFile w path _) as [fileData|]; simpl in H; [|discriminate].
  destruct (detect fileData) as [positions|]; simpl in H; [|discriminate].
  injection H as <-. simpl.
  destruct Hin as (q & Hq & [[_ ->]|(_ & rel & -> & ->)]).
  - rewrite Rel_self in ER. now injection ER as <-.
  - rewrite Rel_Join in ER. injection ER as <-.
    apply without_sound in Hq as [Hq _]. rewrite resolve_Join in Hq.
    destruct (within ".git" rel) eqn:E; [|reflexivity].
    apply within_spec in E as [->|[r ->]].
    + now rewrite within_refl in Hq.
    + now rewrite Join_assoc, within_Join in Hq.
Qed.

(** X7. Version-control metadata is not scanned: in a world where
    [os.RemoveAll] does not fail, no file of any repository in the report
    has a [Path] at or below [.git]. *)
Theorem git_directory_never_reported detect w orgName d sr sf :
  (forall path, RemoveAll_fails w path = false) ->
  In sr (items (report (crawlOrg detect w orgName d))) ->
  In sf (items (Files sr)) ->
  within ".git" (Path sf) = false.
Proof.
  intros Hok.
  assert (Hloop : forall tmpDir repos d0 srs,
    (forall sr', In sr' (items srs) ->
       forall sf', In sf' (items (Files sr')) -> within ".git" (Path sf') = false) ->
    forall sr', In sr' (items (report (crawlRepos detect w tmpDir repos d0 srs))) ->
      forall sf', In sf' (items (Files sr')) -> within ".git" (Path sf') = false).
  { intros tmpDir repos. induction repos as [|repo rest IH]; intros d0 srs Hsrs;
      simpl; [exact Hsrs|].
    apply IH. pose proof (crawlRepo_shape detect w tmpDir repo d0 srs) as Hs.
    destruct (target repo) as [[repoName cloneURL]|]; simpl in Hs.
    - destruct (PlainClone w cloneURL) as [t|]; rewrite Hs; simpl; [|exact Hsrs].
      destruct (snd (scanRepo detect w tmpDir repoName _)) as [fs|] eqn:ES;
        [|exact Hsrs].
      intros sr'. unfold append. simpl. rewrite List.in_app_iff.
      intros [Hin|[<-|[]]]; [now apply Hsrs|]. simpl. intros sf' Hsf.
      apply (scanRepo_outside_git detect w tmpDir repoName
               (d0 ++ place (resolve w (filepath.Join tmpDir repoName)) t));
        [apply Hok|]. now rewrite ES.
    - rewrite Hs. exact Hsrs. }
  destruct (crawlOrg_report detect w orgName d) as [H|(repos & tmpDir & d1 & H)];
    rewrite H; [intros [] |].
  intros Hsr Hsf. apply (Hloop tmpDir repos d1 None (fun _ F => match F with end) sr Hsr sf Hsf).
Qed.

Lemma git_directory_never_reported_witness :
  within ".git" (Path {| Path := "config.yml";
                         Positions := Some [ {| Start := 0; End := 40 |} ] |}) = false.
Proof.
  apply (git_directory_never_reported wholeFile scenario "org" []
           {| Name := "R1";
              Files := Some [ {| Path := "config.yml";
                                 Positions := Some [ {| Start := 0; End := 40 |} ] |} ] |}
           {| Path := "config.yml"; Positions := Some [ {| Start := 0; End := 40 |} ] |});
    [reflexivity | vm_compute; left; reflexivity | left; reflexivity].
Defined.

(** ** The lines of the manifest *)

(** X8. The set of files to ignore depends on which lines the manifest
    holds, not on their order or on repetitions: two sequences of lines with
    the same members add the same entries. *)
Theorem manifest_order_irrelevant (ignoreList ignoreList' : list string)
    (filesToIgnore : gset string) :
  (forall f, In f ignoreList <-> In f ignoreList') ->
  addIgnored ignoreList filesToIgnore = addIgnored ignoreList' filesToIgnore.
Proof.
  intros H. apply set_eq. intros f. rewrite !addIgnored_spec, H. reflexivity.
Qed.

Lemma manifest_order_irrelevant_witness :
  addIgnored ["fake.key"; "# keys"; "id_rsa"; "fake.key"] ∅
  = addIgnored ["id_rsa"; "fake.key"; "# keys"] ∅.
Proof.
  apply manifest_order_irrelevant. intros f. simpl. tauto.
Defined.

Lemma SplitLines_cons (s : string) : exists l ls, strings.SplitLines s = l :: ls.
Proof.
  destruct s as [|c s]; simpl; [now eexists _, _|].
  destruct (Ascii.eqb c "010"); [now eexists _, _|].
  destruct (strings.SplitLines s); now eexists _, _.
Qed.

(** X9. Splitting at line feeds loses nothing: joining the lines of a
    manifest with line feeds gives back its text, and no line holds a line
    feed, so each line reaches the set of files to ignore whole. *)
Theorem SplitLines_round_trip (s : string) :
  String.concat (String "010" "") (strings.SplitLines s) = s /\
  Forall (fun l => ~ In "010"%char (list_ascii_of_string l)) (strings.SplitLines s).
Proof.
  induction s as [|c s [IH1 IH2]]; simpl.
  - split; [reflexivity|]. repeat constructor. intros [].
  - destruct (Ascii.eqb_spec c "010") as [->|Hc].
    + split.
      * destruct (SplitLines_cons s) as (l & ls & E). rewrite E in IH1 |- *.
        change (String "010" (String.concat (String "010" "") (l :: ls)) = String "010" s).
        now rewrite IH1.
      * constructor; [intros [] | exact IH2].
    + destruct (strings.SplitLines s) as [|l ls]; simpl in *.
      * subst s. split; [reflexivity|]. repeat constructor. simpl. intros [H|[]].
        now apply Hc.
      * split.
        -- destruct ls; simpl in *; now rewrite <- IH1.
        -- inversion IH2 as [|? ? Hl Hls]; subst. constructor; [|exact Hls].
           simpl. intros [H|H]; [now apply Hc | now apply Hl].
Qed.

(** ** Removing twice *)

Lemma without_idem root (d : disk) : without root (without root d) = without root d.
Proof.
  unfold without. induction d as [|[q e] d IH]; simpl; [reflexivity|].
  destruct (within root q) eqn:E; simpl; [exact IH|]. now rewrite E, IH.
Qed.

(** ** The detector and the disk *)


(** X13. The files of a repository are reported in the order the walk meets
    them: their paths are, in order, among the relative paths of the
    visited entries. *)
Theorem files_follow_walk detect w tmpDir repoName d :
  sublist
    (List.map Path (items (snd (scanRepo detect w tmpDir repoName d))))
    (omap (fun visit => filepath.Rel (filepath.Join tmpDir repoName) (fst visit))
       (visited (resolve w (filepath.Join tmpDir repoName))
          (filepath.Join tmpDir repoName) d)).
Proof.
  rewrite scanRepo_items.
  generalize (visited (resolve w (filepath.Join tmpDir repoName))
                (filepath.Join tmpDir repoName) d).
  intros entries. induction entries as [|[path info] rest IH]; [constructor|].
  change (omap ?f ((path, info) :: rest))
    with (match f (path, info) with Some y => y :: omap f rest | None => omap f rest end).
  unfold finding at 1. cbn [fst snd].
  destruct (filepath.Rel _ path) as [relPath|]; simpl.
  - destruct info as [|data]; [now constructor|].
    destruct (bool_decide _); [now constructor|].
    destruct (ReadFile w path d) as [fileData|]; simpl; [|now constructor].
    destruct (detect fileData); simpl; now constructor.
  - now destruct info.
Qed.

(** * The crawl as a whole *)

(** ** Go's [Join] on plain elements *)

Lemma elements_plain (e : string) :
  filepath.hasSeparator e = false -> filepath.elements e = [e].
Proof.
  induction e as [|c e IH]; simpl; [reflexivity|].
  intros H. apply orb_false_iff in H as [Hc He]. rewrite Hc, (IH He). reflexivity.
Qed.

Lemma elements_app (a s : string) :
  filepath.hasSeparator a = false ->
  filepath.elements (a +:+ "/" +:+ s) = a :: filepath.elements s.
Proof.
  change ("/" +:+ s) with (String "/" s).
  induction a as [|c a IH]; simpl; [reflexivity|].
  intros H. apply orb_false_iff in H as [Hc Ha]. rewrite Hc, (IH Ha). reflexivity.
Qed.

Lemma plain_spec (e : string) :
  filepath.plain e = true <->
  e <> "" /\ e <> "." /\ e <> ".." /\ filepath.hasSeparator e = false.
Proof.
  unfold filepath.plain. rewrite !andb_true_iff, !negb_true_iff, !String.eqb_neq.
  tauto.
Qed.

Lemma elements_concat (names : list string) :
  names <> [] -> Forall (fun e => filepath.plain e = true) names ->
  filepath.elements (String.concat "/" names) = names.
Proof.
  induction names as [|n names IH]; [congruence|]. intros _ H.
  inversion H as [|? ? Hn Hrest]; subst. apply plain_spec in Hn as (_ & _ & _ & Hn).
  destruct names as [|n' names]; [now apply elements_plain|].
  change (String.concat "/" (n :: n' :: names))
    with (n +:+ "/" +:+ String.concat "/" (n' :: names)).
  rewrite (elements_app _ _ Hn), IH by (congruence || assumption). reflexivity.
Qed.

Lemma cleanStep_plain rooted out (names : list string) :
  Forall (fun e => filepath.plain e = true) names ->
  List.fold_left (filepath.cleanStep rooted) names out = List.rev names ++ out.
Proof.
  revert out. induction names as [|n names IH]; intros out H; [reflexivity|].
  inversion H as [|? ? Hn Hrest]; subst. simpl. rewrite (IH _ Hrest).
  apply plain_spec in Hn as (H1 & H2 & H3 & _).
  unfold filepath.cleanStep.
  apply String.eqb_neq in H1, H2, H3. rewrite H1, H2, H3.
  now rewrite <- List.app_assoc.
Qed.

(** [Clean] changes nothing in a path made of plain elements. *)
Lemma Clean_plain (names : list string) :
  names <> [] -> Forall (fun e => filepath.plain e = true) names ->
  filepath.Clean (String.concat "/" names) = String.concat "/" names.
Proof.
  intros Hne H. pose proof (elements_concat names Hne H) as Hel.
  destruct names as [|n names]; [congruence|].
  assert (E : exists c rest, String.concat "/" (n :: names) = String c rest /\
                             filepath.IsPathSeparator c = false).
  { inversion H as [|? ? Hn _]; subst. apply plain_spec in Hn as (Hn & _ & _ & Hs).
    destruct n as [|c n]; [congruence|]. simpl in Hs.
    apply orb_false_iff in Hs as [Hc _]. destruct names; simpl; eauto. }
  destruct E as (c & rest & E & Hc).
  assert (Ec : String.concat "/" (List.rev (List.rev (n :: names))) = String c rest)
    by now rewrite List.rev_involutive.
  rewrite E in Hel |- *. unfold filepath.Clean.
  rewrite Hel, Hc, (cleanStep_plain _ _ _ H), List.app_nil_r.
  destruct (List.rev (n :: names)) eqn:Er.
  - apply (f_equal (@List.length string)) in Er. rewrite List.length_rev in Er.
    discriminate.
  - rewrite Ec. reflexivity.
Qed.

(** On plain elements the model's [Join] is Go's. *)
Lemma join_plain2 (a b : string) :
  filepath.plain a = true -> filepath.plain b = true ->
  filepath.join [a; b] = filepath.Join a b.
Proof.
  intros Ha Hb. unfold filepath.join.
  pose proof (proj1 (plain_spec a) Ha) as (Hne & _).
  apply String.eqb_neq in Hne. rewrite Hne.
  now rewrite Clean_plain by first [congruence | repeat constructor; assumption].
Qed.

Lemma join_plain3 (a b c : string) :
  filepath.plain a = true -> filepath.plain b = true -> filepath.plain c = true ->
  filepath.join [a; b; c] = filepath.Join (filepath.Join a b) c.
Proof.
  intros Ha Hb Hc. unfold filepath.join.
  pose proof (proj1 (plain_spec a) Ha) as (Hne & _).
  apply String.eqb_neq in Hne. rewrite Hne.
  rewrite Clean_plain by first [congruence | repeat constructor; assumption].
  unfold filepath.Join. simpl. now rewrite !append_assoc.
Qed.

Example join_dot_dot :
  filepath.join ["tmp_42"; ".."] = "." /\
  filepath.join ["tmp_42"; ".."; ".git"] = ".git" /\
  filepath.Clean "abc/def/../../.." = ".." /\
  filepath.Clean "/abc//def/./.." = "/abc".
Proof. repeat split. Qed.

Lemma scratchName_plain digits : filepath.plain (scratchName digits) = true.
Proof.
  apply plain_spec. unfold scratchName. repeat split; try discriminate.
  rewrite hasSeparator_app. apply digits_plain.
Qed.

Lemma target_Some repo repoName cloneURL :
  target repo = Some (repoName, cloneURL) ->
  github.Name repo = Some repoName /\ repoName <> "".
Proof.
  unfold target. destruct (github.Name repo) as [n|]; [|discriminate].
  destruct (github.CloneURL repo) as [u|]; [|discriminate].
  destruct (String.eqb_spec n ""); [discriminate|].
  destruct (String.eqb u ""); [discriminate|]. simpl. now intros [= <- <-].
Qed.

(** The paths the crawl hands to its collaborators are Go's: [Clean] leaves
    them as they are when the listed names are plain. *)
Lemma crawlRepos_paths_clean detect w digits repos d srs :
  Forall plainRecord repos ->
  Forall (fun c => filepath.Clean (pathOf c) = pathOf c)
    (calls (crawlRepos detect w (scratchName digits) repos d srs)).
Proof.
  revert d srs. induction repos as [|repo rest IH]; intros d srs H; simpl.
  - constructor.
  - inversion H as [|? ? Hrepo Hrest]; subst. apply Forall_app. split; [|now apply IH].
    pose proof (crawlRepo_shape detect w (scratchName digits) repo d srs) as Hs.
    destruct (target repo) as [[repoName cloneURL]|] eqn:ET; simpl in Hs;
      [|rewrite Hs; constructor].
    apply target_Some in ET as [HN HNe]. pose proof (Hrepo repoName HN HNe) as Hp.
    assert (H2 : filepath.Clean (filepath.Join (scratchName digits) repoName)
                 = filepath.Join (scratchName digits) repoName).
    { apply (Clean_plain [scratchName digits; repoName]); [congruence|].
      repeat constructor; [apply scratchName_plain | exact Hp]. }
    assert (H3 : filepath.Clean
                   (filepath.Join (filepath.Join (scratchName digits) repoName) ".git")
                 = filepath.Join (filepath.Join (scratchName digits) repoName) ".git").
    { replace (filepath.Join (filepath.Join (scratchName digits) repoName) ".git")
        with (String.concat "/" [scratchName digits; repoName; ".git"])
        by (unfold filepath.Join; simpl; now rewrite !append_assoc).
      apply Clean_plain; [congruence|].
      repeat constructor; [apply scratchName_plain | exact Hp]. }
    destruct (PlainClone w cloneURL); rewrite Hs; simpl; repeat constructor; assumption.
Qed.

(** ** The report and the specification *)

(** The loop reports what the specification asks for. *)
Lemma crawlRepos_reported detect w tmpDir repos d srs :
  items (report (crawlRepos detect w tmpDir repos d srs))
  = items srs ++ reported detect w tmpDir repos d.
Proof.
  revert d srs. induction repos as [|repo rest IH]; intros d srs; simpl.
  - now rewrite List.app_nil_r.
  - rewrite IH. pose proof (crawlRepo_shape detect w tmpDir repo d srs) as Hs.
    destruct (target repo) as [[repoName cloneURL]|]; simpl in Hs;
      [|now rewrite Hs].
    destruct (PlainClone w cloneURL) as [t|]; rewrite Hs; simpl; [|reflexivity].
    pose proof (scanRepo_filled detect w tmpDir repoName
      (fst (RemoveAll w (filepath.Join (filepath.Join tmpDir repoName) ".git")
              (d ++ place (resolve w (filepath.Join tmpDir repoName)) t)))) as Hf.
    destruct (snd (scanRepo detect w tmpDir repoName _)) as [[|f fs]|].
    + now destruct (Hf [] eq_refl).
    + unfold append. simpl. now rewrite <- List.app_assoc.
    + reflexivity.
Qed.

Lemma crawlOrg_reported detect w orgName d repos digits :
  ListByOrg w orgName = Some repos -> Getwd_fails w = false ->
  TempDir_digits w = Some digits ->
  items (report (crawlOrg detect w orgName d))
  = reported detect w (scratchName digits) repos
      (d ++ [(scratchDir w digits, Directory)]).
Proof.
  intros HL HG HT. unfold crawlOrg, Getwd, TempDir. rewrite HL, HG, HT.
  fold (scratchName digits). fold (scratchDir w digits).
  rewrite Base_tmpDir0, resolve_tmpDir0. cbn [report].
  now rewrite crawlRepos_reported.
Qed.

(** The entries the scenario is to yield with a detector that flags every
    file. *)
Example reported_of_scenario :
  reported wholeFile scenario "tmp_42"
    [ {| github.Name := Some "R1"; github.CloneURL := Some "https://example.org/R1.git" |};
      {| github.Name := Some "R3"; github.CloneURL := Some "https://example.org/R3.git" |} ]
    []
  = [ {| Name := "R1";
         Files := Some [ {| Path := "config.yml";
                            Positions := Some [ {| Start := 0; End := 40 |} ] |} ] |};
      {| Name := "R3";
         Files := Some [ {| Path := ".credignore";
                            Positions := Some [ {| Start := 0; End := 8 |} ] |} ] |} ].
Proof. vm_compute. reflexivity. Qed.

(** C3. A repository appears in the report if and only if its scan produced
    at least one finding.  One turn of the loop appends an entry exactly
    when the repository has a usable name and clone URL, its clone succeeds
    and the scan of the cloned tree returns a non-empty sequence of files,
    and the entry is that name with those files; otherwise the turn leaves
    the report as it was.  No entry of the report is empty.  The report of
    the loop is the report it started with followed by the entries the
    specification asks for, and the report [CrawlOrg] returns, once the
    listing and the scratch directory are there, is exactly those entries:
    one, in listing order, for each repository whose scan held a finding, and
    none for any other. *)
Theorem repo_reported_iff_findings detect w tmpDir repo d srs :
  (forall sr,
     report (crawlRepo detect w tmpDir repo d srs) = append srs sr <->
     exists repoName cloneURL d1 fs,
       github.Name repo = Some repoName /\ repoName <> "" /\
       github.CloneURL repo = Some cloneURL /\ cloneURL <> "" /\
       PlainCloneContext w (filepath.Join tmpDir repoName) cloneURL d = Some d1 /\
       scanRepo detect w tmpDir repoName
         (fst (RemoveAll w (filepath.Join (filepath.Join tmpDir repoName) ".git") d1))
       = (None, Some fs) /\
       fs <> [] /\ sr = {| Name := repoName; Files := Some fs |}) /\
  ((forall sr, report (crawlRepo detect w tmpDir repo d srs) <> append srs sr) ->
   report (crawlRepo detect w tmpDir repo d srs) = srs) /\
  (forall orgName d0 sr,
     In sr (items (report (crawlOrg detect w orgName d0))) -> items (Files sr) <> []) /\
  (forall repos d0 srs0,
     items (report (crawlRepos detect w tmpDir repos d0 srs0))
     = items srs0 ++ reported detect w tmpDir repos d0) /\
  (forall orgName d0 repos digits,
     ListByOrg w orgName = Some repos -> Getwd_fails w = false ->
     TempDir_digits w = Some digits ->
     items (report (crawlOrg detect w orgName d0))
     = reported detect w (scratchName digits) repos
         (d0 ++ [(scratchDir w digits, Directory)])).
Proof.
  split; [|split; [|split; [|split]]].
  - intros sr. unfold crawlRepo.
    destruct (github.Name repo) as [repoName|];
      [|split; [intros H; now apply eq_sym, append_neq in H | intros (?&?&?&?&?&_); discriminate]].
    destruct (String.eqb_spec repoName "") as [->|HN];
      [split; [intros H; now apply eq_sym, append_neq in H | intros (?&?&?&?&[= <-]&?&_); congruence]|].
    destruct (github.CloneURL repo) as [cloneURL|];
      [|split; [intros H; now apply eq_sym, append_neq in H | intros (?&?&?&?&?&?&?&_); discriminate]].
    destruct (String.eqb_spec cloneURL "") as [->|HU];
      [split; [intros H; now apply eq_sym, append_neq in H
              | intros (?&?&?&?&?&?&[= <-]&?&_); congruence]|].
    destruct (PlainCloneContext w _ cloneURL d) as [d1|] eqn:EC;
      [|split; [intros H; now apply eq_sym, append_neq in H
               | intros (?&?&?&?&[= <-]&?&[= <-]&?&?&_); congruence]].
    pose proof (scanRepo_filled detect w tmpDir repoName
      (fst (RemoveAll w (filepath.Join (filepath.Join tmpDir repoName) ".git") d1))) as Hf.
    pose proof (scanRepo_no_error detect w tmpDir repoName
      (fst (RemoveAll w (filepath.Join (filepath.Join tmpDir repoName) ".git") d1))) as He.
    destruct (scanRepo detect w tmpDir repoName _) as [err [fs|]] eqn:ES;
      simpl in He; subst err; simpl.
    + split.
      * intros H. apply append_inj in H. subst sr.
        exists repoName, cloneURL, d1, fs. repeat split; auto.
      * intros (n & u & d1' & fs' & [= <-] & _ & [= <-] & _ & H1 & H2 & _ & ->).
        rewrite EC in H1. injection H1 as <-. rewrite ES in H2. now injection H2 as <-.
    + split; [intros H; now apply eq_sym, append_neq in H|].
      intros (n & u & d1' & fs' & [= <-] & _ & [= <-] & _ & H1 & H2 & _).
      rewrite EC in H1. injection H1 as <-. rewrite ES in H2. discriminate.
  - intros H. destruct (crawlRepo_turn detect w tmpDir repo d srs) as [|repoName fs _ _];
      [reflexivity | now destruct (H {| Name := repoName; Files := Some fs |})].
  - intros orgName d0 sr.
    destruct (crawlOrg_report detect w orgName d0) as [H|(repos & tmp & d1 & H)];
      rewrite H; [intros [] |].
    apply crawlRepos_noEmptyEntry. intros ? [].
  - intros. apply crawlRepos_reported.
  - intros. now apply crawlOrg_reported.
Qed.

Lemma repo_reported_iff_findings_witness :
  items (report (crawlOrg wholeFile scenario "org" []))
  = reported wholeFile scenario (scratchName (Decimal.D4 (Decimal.D2 Decimal.Nil)))
      [ {| github.Name := Some "R1"; github.CloneURL := Some "https://example.org/R1.git" |};
        {| github.Name := Some "R2"; github.CloneURL := Some "https://example.org/R2.git" |};
        {| github.Name := Some "R3"; github.CloneURL := Some "https://example.org/R3.git" |} ]
      ([] ++ [(scratchDir scenario (Decimal.D4 (Decimal.D2 Decimal.Nil)), Directory)]).
Proof.
  apply (proj2 (proj2 (proj2 (proj2
           (repo_reported_iff_findings wholeFile scenario "tmp_42"
              {| github.Name := None; github.CloneURL := None |} [] None))))
           "org" []); reflexivity.
Defined.

Lemma reported_loop detect w tmpDir repos d :
  reported detect w tmpDir repos d
  = items (report (crawlRepos detect w tmpDir repos d None)).
Proof. now rewrite crawlRepos_reported. Qed.

Lemma reported_relisted detect w listed tmpDir repos d :
  reported detect (relisted w listed) tmpDir repos d = reported detect w tmpDir repos d.
Proof. now rewrite !reported_loop, crawlRepos_relisted. Qed.

Lemma reported_skip detect w tmpDir before failed rest d :
  cloneFails w failed ->
  reported detect w tmpDir (before ++ failed :: rest) d
  = reported detect w tmpDir (before ++ rest) d.
Proof.
  intros Hf. rewrite !reported_loop. f_equal. now apply crawlRepos_skip.
Qed.

(** C5. A clone failure for one listed repository causes only that
    repository to be omitted.  The loop goes on: after the calls made for
    the repositories before it and the failed clone call, it makes the calls
    of the remaining repositories.  The report holds, after the entries it
    started with, exactly the entries the specification asks for the
    listing without the failing repository, so every other repository that
    clones and has findings appears in it; the same holds of the report
    [CrawlOrg] returns. *)
Theorem clone_failure_isolated detect w tmpDir before failed rest d srs :
  cloneFails w failed ->
  items (report (crawlRepos detect w tmpDir (before ++ failed :: rest) d srs))
  = items srs ++ reported detect w tmpDir (before ++ rest) d /\
  (forall sr, In sr (reported detect w tmpDir (before ++ rest) d) ->
     In sr (items (report (crawlRepos detect w tmpDir (before ++ failed :: rest) d srs)))) /\
  (exists repoName cloneURL,
     github.Name failed = Some repoName /\ github.CloneURL failed = Some cloneURL /\
     calls (crawlRepos detect w tmpDir (before ++ failed :: rest) d srs)
     = calls (crawlRepos detect w tmpDir before d srs)
       ++ CallClone cloneURL (filepath.Join tmpDir repoName)
       :: calls (crawlRepos detect w tmpDir rest
                   (after (crawlRepos detect w tmpDir before d srs))
                   (report (crawlRepos detect w tmpDir before d srs)))) /\
  report (crawlRepos detect w tmpDir (before ++ failed :: rest) d srs)
  = report (crawlRepos detect w tmpDir (before ++ rest) d srs) /\
  after (crawlRepos detect w tmpDir (before ++ failed :: rest) d srs)
  = after (crawlRepos detect w tmpDir (before ++ rest) d srs) /\
  (forall orgName d0 digits,
     Getwd_fails w = false -> TempDir_digits w = Some digits ->
     items (report (crawlOrg detect (relisted w (before ++ failed :: rest)) orgName d0))
     = reported detect w (scratchName digits) (before ++ rest)
         (d0 ++ [(scratchDir w digits, Directory)])).
Proof.
  intros Hf. destruct (crawlRepos_skip detect w tmpDir before failed rest d srs Hf)
    as [Hr Ha].
  assert (E : items (report (crawlRepos detect w tmpDir (before ++ failed :: rest) d srs))
              = items srs ++ reported detect w tmpDir (before ++ rest) d)
    by (rewrite Hr; apply crawlRepos_reported).
  split; [exact E|]. split.
  { intros sr Hin. rewrite E. apply List.in_or_app. now right. }
  split.
  { destruct Hf as (repoName & cloneURL & HN & HNe & HU & HUe & HC).
    exists repoName, cloneURL. split; [exact HN|]. split; [exact HU|].
    rewrite crawlRepos_app. simpl. f_equal.
    pose proof (crawlRepo_shape detect w tmpDir failed
                  (after (crawlRepos detect w tmpDir before d srs))
                  (report (crawlRepos detect w tmpDir before d srs))) as Hs.
    unfold target in Hs. rewrite HN, HU in Hs.
    apply String.eqb_neq in HNe, HUe. rewrite HNe, HUe in Hs. simpl in Hs.
    rewrite HC in Hs. rewrite Hs. reflexivity. }
  split; [exact Hr|]. split; [exact Ha|].
  intros orgName d0 digits HG HT.
  rewrite (crawlOrg_reported detect (relisted w (before ++ failed :: rest)) orgName d0
             (before ++ failed :: rest) digits eq_refl HG HT).
  change (scratchDir (relisted w (before ++ failed :: rest)) digits)
    with (scratchDir w digits).
  rewrite reported_relisted. now apply reported_skip.
Qed.

Lemma clone_failure_isolated_witness :
  items (report (crawlRepos wholeFile scenario "tmp_42"
            ([ {| github.Name := Some "R1"; github.CloneURL := Some "https://example.org/R1.git" |} ]
             ++ {| github.Name := Some "R2"; github.CloneURL := Some "https://example.org/R2.git" |}
             :: [ {| github.Name := Some "R3"; github.CloneURL := Some "https://example.org/R3.git" |} ])
            [] None))
  = items None
    ++ reported wholeFile scenario "tmp_42"
         ([ {| github.Name := Some "R1"; github.CloneURL := Some "https://example.org/R1.git" |} ]
          ++ [ {| github.Name := Some "R3"; github.CloneURL := Some "https://example.org/R3.git" |} ])
         [].
Proof.
  apply (clone_failure_isolated wholeFile scenario "tmp_42").
  exists "R2", "https://example.org/R2.git".
  repeat split; (discriminate || reflexivity).
Defined.

(** ** The scratch directory, again *)

(** C9, as stated, fails: on a file system that refuses the removal the
    crawl still ends with the deferred [os.RemoveAll] of the scratch
    directory, whose error it ignores, and the working tree of [R1] is
    still on the disk when [CrawlOrg] returns.  (For a repository named
    [..] Go's [Join] does not even name a directory below the scratch
    directory.) *)
Lemma scratch_survives_failed_removal :
  List.last (calls (CrawlOrg stubborn "org" [])) (CallWalk "")
  = CallRemoveAll "/home/audit/tmp_42" /\
  In ("/home/audit/tmp_42/R1/config.yml", Regular (Some randomRun))
     (after (CrawlOrg stubborn "org" [])) /\
  filepath.join ["tmp_42"; ".."] = ".".
Proof. split; [|split]; vm_compute; [reflexivity | tauto | reflexivity]. Qed.

(** C9, amended.  When the listed repositories have plain names, [CrawlOrg]
    either returns before the scratch directory exists, having made no call
    and left the disk as it was, or its first call creates the directory and
    its last call is the deferred [os.RemoveAll] of that directory; every
    clone, removal and walk in between is handed a path that Go's [Clean]
    leaves unchanged and that lies at or below the directory; and when that
    last removal succeeds the disk afterwards is the initial disk without
    the directory, so nothing at or below it remains. *)
Theorem scratch_dir_removed detect w orgName d :
  (forall repos, ListByOrg w orgName = Some repos -> Forall plainRecord repos) ->
  (calls (crawlOrg detect w orgName d) = [] /\ after (crawlOrg detect w orgName d) = d) \/
  exists tmpDir0 made,
    calls (crawlOrg detect w orgName d)
    = CallTempDir tmpDir0 :: made ++ [CallRemoveAll tmpDir0] /\
    Forall (confined w tmpDir0) made /\
    Forall (fun c => filepath.Clean (pathOf c) = pathOf c) made /\
    (RemoveAll_fails w tmpDir0 = false ->
     after (crawlOrg detect w orgName d) = without tmpDir0 d /\
     forall q e, In (q, e) (after (crawlOrg detect w orgName d)) ->
                 within tmpDir0 q = false /\ In (q, e) d).
Proof.
  intros Hplain. unfold crawlOrg.
  destruct (ListByOrg w orgName) as [repos|]; [|now left].
  specialize (Hplain repos eq_refl).
  unfold Getwd. destruct (Getwd_fails w); [now left|].
  unfold TempDir. destruct (TempDir_digits w) as [digits|]; [|now left].
  right. fold (scratchName digits). fold (scratchDir w digits).
  rewrite Base_tmpDir0.
  destruct (crawlRepos_confined detect w digits repos
              (d ++ [(resolve w (scratchDir w digits), Directory)]) None) as [Hd Hc].
  exists (scratchDir w digits), (calls (crawlRepos detect w (scratchName digits) repos
            (d ++ [(resolve w (scratchDir w digits), Directory)]) None)).
  simpl. split; [reflexivity|]. split; [exact Hc|].
  split; [now apply crawlRepos_paths_clean|].
  intros Hok. unfold RemoveAll. rewrite resolve_tmpDir0, Hok. simpl.
  assert (Hfinal : without (scratchDir w digits)
            (after (crawlRepos detect w (scratchName digits) repos
                      (d ++ [(resolve w (scratchDir w digits), Directory)]) None))
          = without (scratchDir w digits) d).
  { rewrite Hd, without_app, resolve_tmpDir0. unfold without at 2. simpl.
    rewrite within_refl. simpl. apply List.app_nil_r. }
  split; [exact Hfinal|].
  intros q e Hin. apply (without_sound (scratchDir w digits) d).
  rewrite <- Hfinal. exact Hin.
Qed.

Lemma scenario_names_plain :
  forall repos, ListByOrg scenario "org" = Some repos -> Forall plainRecord repos.
Proof.
  intros repos [= <-]. repeat constructor; intros repoName [= <-] _; reflexivity.
Qed.

Lemma scratch_dir_removed_witness :
  (calls (crawlOrg wholeFile scenario "org" [("/etc/hostname", Regular None)]) = [] /\
   after (crawlOrg wholeFile scenario "org" [("/etc/hostname", Regular None)])
   = [("/etc/hostname", Regular None)]) \/
  exists tmpDir0 made,
    calls (crawlOrg wholeFile scenario "org" [("/etc/hostname", Regular None)])
    = CallTempDir tmpDir0 :: made ++ [CallRemoveAll tmpDir0] /\
    Forall (confined scenario tmpDir0) made /\
    Forall (fun c => filepath.Clean (pathOf c) = pathOf c) made /\
    (RemoveAll_fails scenario tmpDir0 = false ->
     after (crawlOrg wholeFile scenario "org" [("/etc/hostname", Regular None)])
     = without tmpDir0 [("/etc/hostname", Regular None)] /\
     forall q e,
       In (q, e) (after (crawlOrg wholeFile scenario "org" [("/etc/hostname", Regular None)])) ->
       within tmpDir0 q = false /\ In (q, e) [("/etc/hostname", Regular None)]).
Proof.
  apply (scratch_dir_removed wholeFile scenario "org"
           [("/etc/hostname", Regular None)] scenario_names_plain).
Defined.

(** X10. Whatever fails, the final cleanup included, the crawl of
    repositories with plain names neither adds nor removes nor reorders
    anything outside its scratch directory: the entries of the disk that
    are not at or below that directory are the same before and after. *)
Theorem crawl_stays_in_scratch detect w orgName d digits :
  (forall repos, ListByOrg w orgName = Some repos -> Forall plainRecord repos) ->
  TempDir_digits w = Some digits ->
  without (scratchDir w digits) (after (crawlOrg detect w orgName d))
  = without (scratchDir w digits) d /\
  (forall repos, ListByOrg w orgName = Some repos ->
     Forall (fun c => filepath.Clean (pathOf c) = pathOf c)
       (calls (crawlRepos detect w (scratchName digits) repos
                 (d ++ [(scratchDir w digits, Directory)]) None))).
Proof.
  intros Hplain HT. split; [|intros repos HL; now apply crawlRepos_paths_clean, Hplain].
  unfold crawlOrg.
  destruct (ListByOrg w orgName) as [repos|]; [|reflexivity].
  unfold Getwd. destruct (Getwd_fails w); [reflexivity|].
  unfold TempDir. rewrite HT.
  fold (scratchName digits). fold (scratchDir w digits). rewrite Base_tmpDir0.
  destruct (crawlRepos_confined detect w digits repos
              (d ++ [(resolve w (scratchDir w digits), Directory)]) None) as [Hd _].
  cbn [after]. unfold RemoveAll. rewrite resolve_tmpDir0 in Hd |- *.
  destruct (RemoveAll_fails w (scratchDir w digits)); cbn [fst];
    rewrite ?without_idem, Hd, without_app;
    unfold without at 2; simpl; rewrite within_refl; simpl; apply List.app_nil_r.
Qed.

Lemma stubborn_names_plain :
  forall repos, ListByOrg stubborn "org" = Some repos -> Forall plainRecord repos.
Proof.
  intros repos [= <-]. repeat constructor; intros repoName [= <-] _; reflexivity.
Qed.

Lemma crawl_stays_in_scratch_witness :
  without "/home/audit/tmp_42"
    (after (crawlOrg wholeFile stubborn "org"
              [("/etc/hostname", Regular (Some randomRun))]))
  = without "/home/audit/tmp_42" [("/etc/hostname", Regular (Some randomRun))].
Proof.
  apply (crawl_stays_in_scratch wholeFile stubborn "org" _
           (Decimal.D4 (Decimal.D2 Decimal.Nil)) stubborn_names_plain eq_refl).
Defined.

(** ** The detector, again *)


(** ** The manifest itself *)


